(** * Tadiran air conditioner over a Broadlink IR blaster

    A shallow embedding of [custom_components/tadiran/climate.py]: the field
    table [unpack], the packer/encoder [pack], the device session
    [BroadlinkTadiran] and the climate entity [TadiranClimate], followed by
    the properties of the specification that concern them. *)

From Stdlib Require Import ZArith Ascii String List Lia.
From stdpp Require Import base tactics option list gmap strings.

Local Open Scope Z_scope.

(** ** Exceptions and results *)

(** The exception classes that the module names or that its operations can
    raise.  [LibraryError] stands for any other exception coming out of the
    broadlink library. *)
Inductive exn : Type :=
  | DeviceOfflineError
  | CannotConnect
  | InvalidAuth
  | IndexError
  | ValueError
  | LibraryError (what : string).

#[global] Instance exn_eq_dec : EqDecision exn.
Proof. solve_decision. Defined.

Inductive result (A : Type) : Type :=
  | Ok (a : A)
  | Raise (e : exn).
Arguments Ok {A} a.
Arguments Raise {A} e.

Definition bind {A B : Type} (c : result A) (k : A -> result B) : result B :=
  match c with
  | Ok a => k a
  | Raise e => Raise e
  end.

Declare Scope result_scope.
Delimit Scope result_scope with result.
Notation "'let*' x ':=' c 'in' k" := (bind c (fun x => k))
  (at level 10, x name, c at level 100, k at level 200) : result_scope.
Local Open Scope result_scope.

(** [try: c except e => h]: the handler replaces the outcome only when [c]
    raised exactly [e]; every other outcome passes through. *)
Definition try_except {A : Type} (c : result A) (e : exn) (h : result A) : result A :=
  match c with
  | Ok a => Ok a
  | Raise e' => if decide (e' = e) then h else Raise e'
  end.

(** A [for] loop whose body may raise: the loop state is threaded from left
    to right and the first exception ends the loop. *)
Fixpoint for_each {S X : Type} (body : S -> X -> result S) (xs : list X) (s : S) : result S :=
  match xs with
  | [] => Ok s
  | x :: xs' => let* s' := body s x in for_each body xs' s'
  end.

(** ** Python list and string primitives *)

(** [l[i]] for a non-negative index: [IndexError] out of range. *)
Definition getitem {A : Type} (l : list A) (i : nat) : result A :=
  match l !! i with
  | Some x => Ok x
  | None => Raise IndexError
  end.

(** [l[i] = x] for a non-negative index: [IndexError] out of range. *)
Definition setitem {A : Type} (l : list A) (i : nat) (x : A) : result (list A) :=
  if decide (i < length l)%nat then Ok (<[i := x]> l) else Raise IndexError.

(** Binary digits of a positive number, least significant digit first. *)
Fixpoint bin_digits (p : positive) : list ascii :=
  match p with
  | xH => ["1"%char]
  | xO q => "0"%char :: bin_digits q
  | xI q => "1"%char :: bin_digits q
  end.

(** The digits Python prints for the magnitude of an integer in base two,
    most significant digit first. *)
Definition bin_repr (i : Z) : list ascii :=
  match i with
  | Z0 => ["0"%char]
  | Zpos p => reverse (bin_digits p)
  | Zneg p => reverse (bin_digits p)
  end.

(** [("{0:0%d" % width + "b}").format(i)]: sign-aware zero padding to a
    minimum of [width] characters: the sign, when there is one, comes first
    and counts towards the width; longer numbers are not cut. *)
Definition format_b (width : nat) (i : Z) : list ascii :=
  let digits := bin_repr i in
  if i <? 0
  then "-"%char :: replicate (width - 1 - length digits) "0"%char ++ digits
  else replicate (width - length digits) "0"%char ++ digits.

(** ** The field table *)

Record FieldSpec : Type := mkField {
  fs_name : string;
  fs_shift : nat;
  fs_bits : nat;
  fs_default : Z
}.

Definition unpack : list FieldSpec := [
  mkField "unknown2" 27 8 0x4A;
  mkField "blow" 23 1 0;
  mkField "light" 21 1 1;
  mkField "turbo" 20 1 0;
  mkField "temp" 8 4 20;
  mkField "swing" 6 2 0;
  mkField "fan" 4 2 1;
  mkField "on" 3 1 1;
  mkField "mode" 0 3 1
].

Definition PREFIX : string := "26004e0000012793".
Definition SUFFIX : string := "14000d0500000000000000000000".

(** ** [bytearray.fromhex] *)

Definition hex_digit (c : ascii) : option N :=
  let n := N_of_ascii c in
  if ((48 <=? n) && (n <=? 57))%N then Some (n - 48)%N
  else if ((97 <=? n) && (n <=? 102))%N then Some (n - 87)%N
  else if ((65 <=? n) && (n <=? 70))%N then Some (n - 55)%N
  else None.

(** Two hexadecimal digits per byte; anything else is a [ValueError]. *)
Fixpoint fromhex (s : string) : result (list Byte.byte) :=
  match s with
  | EmptyString => Ok []
  | String hi (String lo rest) =>
      match hex_digit hi, hex_digit lo with
      | Some h, Some l =>
          match Byte.of_N (16 * h + l) with
          | Some b => let* bs := fromhex rest in Ok (b :: bs)
          | None => Raise ValueError
          end
      | _, _ => Raise ValueError
      end
  | String _ EmptyString => Raise ValueError
  end.

(** ** [pack] *)

(** [vals.get(descr["name"], descr["default"])] *)
Definition resolve (vals : gmap string Z) (descr : FieldSpec) : Z :=
  default (fs_default descr) (vals !! fs_name descr).

(** One round of the outer loop of [pack]: the reversed binary text of the
    field's value is copied, character by character, into the buffer. *)
Definition write_field (vals : gmap string Z) (bits : list ascii) (descr : FieldSpec)
  : result (list ascii) :=
  let start := fs_shift descr in
  let i := resolve vals descr in
  let v := reverse (format_b (fs_bits descr) i) in
  for_each (fun bits i => let* c := getitem v i in setitem bits (start + i) c)
           (seq 0 (fs_bits descr)) bits.

(** The first half of [pack]: the 35 characters of the command word. *)
Definition pack_bits (vals : gmap string Z) : result (list ascii) :=
  for_each (write_field vals) unpack (replicate 35 "0"%char).

(** The second half of [pack]: a pulse pair per character between the prefix
    and the suffix. *)
Definition encode (bits : list ascii) : result (list Byte.byte) :=
  let* data := fromhex PREFIX in
  let data :=
    fold_left (fun data x =>
                 (data ++ [Byte.x16])
                   ++ [if decide (x = "0"%char) then Byte.x13 else Byte.x37])
              bits data in
  let* suffix := fromhex SUFFIX in
  Ok (data ++ suffix).

Definition pack (vals : gmap string Z) : result (list Byte.byte) :=
  let* bits := pack_bits vals in
  encode bits.


(** ** The transport *)

(** The IR blaster as the module sees it: whether the link is up, and the
    frames already handed to it, oldest first. *)
Record device : Type := mkDevice {
  dev_online : bool;
  dev_sent : list (list Byte.byte)
}.

(** Modelled from the spec: [dev.send_data(bytes)] of the broadlink library,
    which is not part of the repository.  It is the transport's "send raw
    signal" primitive, which takes the bytes or reports the device
    unreachable: here the bytes are appended to the log when the link is up,
    and [DeviceOfflineError] is raised when it is not. *)
Definition send_data (d : device) (bytes : list Byte.byte) : result device :=
  if dev_online d
  then Ok (mkDevice (dev_online d) (dev_sent d ++ [bytes]))
  else Raise DeviceOfflineError.

(** The two calls of the broadlink library made during construction; their
    outcomes are not decided by this module.  [gendevice] makes the handle
    for a device type, an address and a MAC; [auth] runs the handshake and
    returns whether it was accepted, or raises, [DeviceOfflineError] when the
    device does not answer. *)
Record broadlink : Type := mkBroadlink {
  gendevice : Z -> string * Z -> string -> result device;
  auth : device -> result bool
}.

(** ** [BroadlinkTadiran] *)

(** A Python value that is either [None] or an [int]. *)
Inductive pyval : Type :=
  | PyNone
  | PyInt (z : Z).

Record BroadlinkTadiran : Type := mkSession {
  dev : device;
  _available : bool
}.

Definition BroadlinkTadiran_init (lib : broadlink) (ip : string) (rmtype : Z)
  : result BroadlinkTadiran :=
  let mac := "000000000000"%string in
  let* d := try_except (gendevice lib rmtype (ip, 80) mac)
                       DeviceOfflineError (Raise CannotConnect) in
  let* a := try_except (auth lib d) DeviceOfflineError (Raise InvalidAuth) in
  Ok (mkSession d a).

Definition available (self : BroadlinkTadiran) : bool := _available self.

(** The dictionary [data] that [send] builds before it calls [pack]. *)
Definition send_filter (args_vars : gmap string pyval) : gmap string Z :=
  fold_left (fun data k =>
               let arg := fs_name k in
               let val := default PyNone (args_vars !! arg) in
               match val with
               | PyInt z => <[arg := z]> data
               | PyNone => data
               end)
            unpack ∅.

(** [send]: the frame of the filtered dictionary goes to the transport.  The
    log line written when ["on"] is 0 changes nothing and is left out. *)
Definition send (self : BroadlinkTadiran) (args_vars : gmap string pyval)
  : result BroadlinkTadiran :=
  let data := send_filter args_vars in
  let* bytes := pack data in
  let* d := send_data (dev self) bytes in
  Ok (mkSession d (_available self)).

(** ** Home Assistant constants used by the entity *)

Definition HVAC_MODE_OFF : string := "off".
Definition HVAC_MODE_HEAT : string := "heat".
Definition HVAC_MODE_COOL : string := "cool".
Definition HVAC_MODE_HEAT_COOL : string := "heat_cool".
Definition HVAC_MODE_AUTO : string := "auto".
Definition HVAC_MODE_DRY : string := "dry".
Definition HVAC_MODE_FAN_ONLY : string := "fan_only".
Definition FAN_AUTO : string := "auto".
Definition FAN_LOW : string := "low".
Definition FAN_MEDIUM : string := "medium".
Definition FAN_HIGH : string := "high".
Definition SWING_OFF : string := "off".
Definition SWING_VERTICAL : string := "vertical".

(** A dictionary display: later entries replace earlier ones. *)
Definition pydict {V : Type} (items : list (string * V)) : gmap string V :=
  fold_left (fun m kv => <[kv.1 := kv.2]> m) items ∅.

(** ** [TadiranClimate] *)

(** The attributes that [__init__] assigns, without [_id] (a slug of the
    address) and [hass], which no method below reads.  The target
    temperature is an integer, on which [int(...)] is the identity. *)
Record TadiranClimate : Type := mkClimate {
  _name : string;
  _ip : string;
  _state : bool;
  _target_temp : Z;
  _hvac_mode : string;
  _last_hvac_mode : string;
  _fan_mode : string;
  _swing_mode : string;
  _temp_entity : option string;
  _humidity_entity : option string;
  remote : BroadlinkTadiran
}.

Definition TadiranClimate_init (lib : broadlink) (name ip : string) (rm_type : Z)
    (temp_entity humidity_entity : option string) : result TadiranClimate :=
  let* r := BroadlinkTadiran_init lib ip rm_type in
  Ok (mkClimate name ip false 24 HVAC_MODE_OFF HVAC_MODE_COOL FAN_AUTO SWING_OFF
                temp_entity humidity_entity r).

Definition set__target_temp (x : Z) (s : TadiranClimate) : TadiranClimate :=
  mkClimate (_name s) (_ip s) (_state s) x (_hvac_mode s) (_last_hvac_mode s)
            (_fan_mode s) (_swing_mode s) (_temp_entity s) (_humidity_entity s) (remote s).
Definition set__hvac_mode (x : string) (s : TadiranClimate) : TadiranClimate :=
  mkClimate (_name s) (_ip s) (_state s) (_target_temp s) x (_last_hvac_mode s)
            (_fan_mode s) (_swing_mode s) (_temp_entity s) (_humidity_entity s) (remote s).
Definition set__last_hvac_mode (x : string) (s : TadiranClimate) : TadiranClimate :=
  mkClimate (_name s) (_ip s) (_state s) (_target_temp s) (_hvac_mode s) x
            (_fan_mode s) (_swing_mode s) (_temp_entity s) (_humidity_entity s) (remote s).
Definition set__fan_mode (x : string) (s : TadiranClimate) : TadiranClimate :=
  mkClimate (_name s) (_ip s) (_state s) (_target_temp s) (_hvac_mode s) (_last_hvac_mode s)
            x (_swing_mode s) (_temp_entity s) (_humidity_entity s) (remote s).
Definition set__swing_mode (x : string) (s : TadiranClimate) : TadiranClimate :=
  mkClimate (_name s) (_ip s) (_state s) (_target_temp s) (_hvac_mode s) (_last_hvac_mode s)
            (_fan_mode s) x (_temp_entity s) (_humidity_entity s) (remote s).
Definition set_remote (x : BroadlinkTadiran) (s : TadiranClimate) : TadiranClimate :=
  mkClimate (_name s) (_ip s) (_state s) (_target_temp s) (_hvac_mode s) (_last_hvac_mode s)
            (_fan_mode s) (_swing_mode s) (_temp_entity s) (_humidity_entity s) x.

(** A method of the entity: it may raise, and whatever it assigned to [self]
    before raising stays assigned. *)
Definition method (A : Type) : Type := TadiranClimate -> result A * TadiranClimate.

(** The entity after the call, whatever the call returned or raised. *)
Definition after {A : Type} (m : method A) (self : TadiranClimate) : TadiranClimate :=
  (m self).2.

(** The dictionary [args_vars] of [send_state]. *)
Definition args_vars (self : TadiranClimate) : gmap string pyval :=
  pydict [
    ("temp"%string, PyInt (_target_temp self));
    ("fan"%string,
      PyInt (default 0 (pydict [(FAN_AUTO, 0); (FAN_LOW, 1); (FAN_MEDIUM, 2); (FAN_HIGH, 3)]
                          !! _fan_mode self)));
    ("swing"%string, PyInt (if decide (_swing_mode self ≠ SWING_OFF) then 1 else 0));
    ("on"%string, PyInt (if decide (_hvac_mode self ≠ HVAC_MODE_OFF) then 1 else 0));
    ("mode"%string,
      PyInt (default 1 (pydict [(HVAC_MODE_OFF, 0);
                                (HVAC_MODE_FAN_ONLY, 0);
                                (HVAC_MODE_COOL, 1);
                                (HVAC_MODE_DRY, 2);
                                (HVAC_MODE_HEAT_COOL, 3);
                                (HVAC_MODE_HEAT, 4)]
                          !! _hvac_mode self)))
  ].

Definition send_state : method unit := fun self =>
  match send (remote self) (args_vars self) with
  | Ok r => (Ok tt, set_remote r self)
  | Raise e => (Raise e, self)
  end.

(** [set_temperature], for a call that carries an integer temperature. *)
Definition set_temperature (temp : Z) : method unit := fun self =>
  send_state (set__target_temp temp self).

Definition set_fan_mode (fan_mode : string) : method unit := fun self =>
  send_state (set__fan_mode fan_mode self).

Definition set_hvac_mode (hvac_mode : string) : method unit := fun self =>
  let self :=
    if decide (hvac_mode = HVAC_MODE_OFF)
    then set__last_hvac_mode hvac_mode self
    else self in
  let self := set__hvac_mode hvac_mode self in
  send_state self.

Definition set_swing_mode (swing_mode : string) : method unit := fun self =>
  send_state (set__swing_mode swing_mode self).

(** [async_set_hvac_mode] is inherited from [ClimateEntity]: it runs
    [set_hvac_mode] with the same argument. *)
Definition async_turn_on : method unit := fun self =>
  set_hvac_mode (_last_hvac_mode self) self.

Definition hvac_mode (self : TadiranClimate) : string := _hvac_mode self.

(** ** The read-only surface of [TadiranClimate] *)

Definition MIN_TEMP : Z := 16.
Definition MAX_TEMP : Z := 30.

Definition CURRENT_HVAC_COOL : string := "cooling".
Definition CURRENT_HVAC_DRY : string := "drying".
Definition CURRENT_HVAC_FAN : string := "fan".
Definition CURRENT_HVAC_HEAT : string := "heating".
Definition CURRENT_HVAC_OFF : string := "off".

Definition hvac_modes : list string :=
  [HVAC_MODE_COOL; HVAC_MODE_DRY; HVAC_MODE_FAN_ONLY; HVAC_MODE_HEAT; HVAC_MODE_OFF].

Definition hvac_action (self : TadiranClimate) : string :=
  default CURRENT_HVAC_OFF
          (pydict [(HVAC_MODE_COOL, CURRENT_HVAC_COOL);
                   (HVAC_MODE_DRY, CURRENT_HVAC_DRY);
                   (HVAC_MODE_FAN_ONLY, CURRENT_HVAC_FAN);
                   (HVAC_MODE_HEAT, CURRENT_HVAC_HEAT)]
             !! _hvac_mode self).

Definition target_temperature (self : TadiranClimate) : Z := _target_temp self.

Definition fan_modes : list string := [FAN_LOW; FAN_MEDIUM; FAN_HIGH; FAN_AUTO].

Definition swing_modes : list string := [SWING_OFF; SWING_VERTICAL].

(** The property [available] of the entity. *)
Definition TadiranClimate_available (self : TadiranClimate) : bool :=
  available (remote self).

(** ** Calls from the controller *)

(** The calls that change the entity, and sequences of them.  A call that
    raised is over; the next call finds what the failed one left. *)
Inductive call : Type :=
  | SetTemperature (temp : Z)
  | SetFanMode (fan_mode : string)
  | SetHvacMode (hvac_mode : string)
  | SetSwingMode (swing_mode : string)
  | AsyncTurnOn.

#[global] Instance call_eq_dec : EqDecision call.
Proof. solve_decision. Defined.

Definition run_call (c : call) : method unit :=
  match c with
  | SetTemperature temp => set_temperature temp
  | SetFanMode fan_mode => set_fan_mode fan_mode
  | SetHvacMode hvac_mode => set_hvac_mode hvac_mode
  | SetSwingMode swing_mode => set_swing_mode swing_mode
  | AsyncTurnOn => async_turn_on
  end.

Definition run_calls (cs : list call) (self : TadiranClimate) : TadiranClimate :=
  fold_left (fun s c => after (run_call c) s) cs self.

(** ** [config_flow.py] *)

(** The user input once the form's schema has accepted it: an address, a
    device type and a name. *)
Record user_input : Type := mkInput {
  ui_ip_address : string;
  ui_rm_type : Z;
  ui_name : string
}.

(** What a step of the flow returns: an entry, or the form again with its
    errors. *)
Inductive flow_result : Type :=
  | create_entry (title : string) (data : user_input)
  | show_form (step_id : string) (errors : gmap string string).

Definition tadiran_validate (lib : broadlink) (ip : string) (rm_type : Z) : result unit :=
  let* dev := BroadlinkTadiran_init lib ip rm_type in
  if negb (available dev) then Raise CannotConnect else Ok tt.

(** [validate_input] returns the dictionary with the title. *)
Definition validate_input (lib : broadlink) (data : user_input) : result string :=
  let* _ := tadiran_validate lib (ui_ip_address data) (ui_rm_type data) in
  Ok (ui_name data).

Definition async_step_user (lib : broadlink) (input : option user_input) : flow_result :=
  let errors : gmap string string := ∅ in
  match input with
  | Some data =>
      match validate_input lib data with
      | Ok title => create_entry title data
      | Raise e =>
          let errors :=
            if decide (e = CannotConnect) then <["base"%string := "cannot_connect"%string]> errors
            else if decide (e = InvalidAuth) then <["base"%string := "invalid_auth"%string]> errors
            else <["base"%string := "unknown"%string]> errors in
          show_form "user" errors
      end
  | None => show_form "user" errors
  end.

(** * Vocabulary of the properties *)

(** ** Bits and fields *)

Definition bitchar (b : bool) : ascii := if b then "1"%char else "0"%char.

(** [v] written as a [width]-wide binary string, least significant bit
    first. *)
Definition lsb_first (width : nat) (v : Z) : list ascii :=
  map (fun i => bitchar (Z.testbit v (Z.of_nat i))) (seq 0 width).

(** Position [p] of the command word belongs to field [d]. *)
Definition covers (d : FieldSpec) (p : nat) : Prop :=
  (fs_shift d <= p < fs_shift d + fs_bits d)%nat.

#[global] Instance covers_dec d p : Decision (covers d p).
Proof. unfold covers. apply _. Defined.

(** The text that [pack] copies from for field [d]. *)
Definition field_text (vals : gmap string Z) (d : FieldSpec) : list ascii :=
  reverse (format_b (fs_bits d) (resolve vals d)).

(** Fields that are apart from each other: one ends before the other
    starts. *)
Definition apart (d1 d2 : FieldSpec) : Prop :=
  (fs_shift d1 + fs_bits d1 <= fs_shift d2
   \/ fs_shift d2 + fs_bits d2 <= fs_shift d1)%nat.

Fixpoint pairwise_apart (l : list FieldSpec) : Prop :=
  match l with
  | [] => True
  | d :: l' => Forall (apart d) l' /\ pairwise_apart l'
  end.

(** ** Frames *)

(** The bytes that [PREFIX] and [SUFFIX] spell. *)
Definition preamble : list Byte.byte :=
  [Byte.x26; Byte.x00; Byte.x4e; Byte.x00; Byte.x00; Byte.x01; Byte.x27; Byte.x93].

Definition trailer : list Byte.byte :=
  [Byte.x14; Byte.x00; Byte.x0d; Byte.x05; Byte.x00; Byte.x00; Byte.x00;
   Byte.x00; Byte.x00; Byte.x00; Byte.x00; Byte.x00; Byte.x00; Byte.x00].

(** The two bytes emitted for one character of the command word. *)
Definition pulse_pair (x : ascii) : list Byte.byte :=
  [Byte.x16; if decide (x = "0"%char) then Byte.x13 else Byte.x37].

(** [args_vars.get(arg, None)] *)
Definition get_or_None (args_vars : gmap string pyval) (arg : string) : pyval :=
  default PyNone (args_vars !! arg).

(** ** The reading side, used to state the round trip *)

(** Modelled from the spec: the test-only inverse of the pulse encoder, which
    the repository does not contain.  It reads [n] pulse pairs: the carrier
    marker followed by the short code is a 0, followed by the long code a 1;
    anything else is not a frame. *)
Fixpoint decode_pairs (n : nat) (data : list Byte.byte) : option (list bool) :=
  match n, data with
  | O, _ => Some []
  | S n', marker :: code :: rest =>
      if Byte.eqb marker Byte.x16 then
        if Byte.eqb code Byte.x13 then cons false <$> decode_pairs n' rest
        else if Byte.eqb code Byte.x37 then cons true <$> decode_pairs n' rest
        else None
      else None
  | S _, _ => None
  end.

(** Modelled from the spec: a frame decoded back into a 35-bit command word,
    skipping the preamble. *)
Definition decode_frame (data : list Byte.byte) : option (list bool) :=
  decode_pairs 35 (drop (length preamble) data).

(** The number spelled by a list of bits, least significant first. *)
Definition bits_value (bs : list bool) : Z :=
  foldr (fun b acc => Z.b2z b + 2 * acc) 0 bs.

(** Modelled from the spec: a field read out of a decoded command word at its
    shift and width. *)
Definition read_field (word : list bool) (d : FieldSpec) : Z :=
  bits_value (take (fs_bits d) (drop (fs_shift d) word)).

Definition is_one (x : ascii) : bool := negb (bool_decide (x = "0"%char)).

(** The non-negative value whose frame a negative value [v] of a field of
    [width] bits gets: the minus sign is sent as a 1 in the top position when
    the digits leave room for it, and is cut off when they do not. *)
Definition sent_for_negative (width : nat) (v : Z) : Z :=
  if - v <? 2 ^ (Z.of_nat width - 1)
  then 2 ^ (Z.of_nat width - 1) - v
  else (- v) mod 2 ^ Z.of_nat width.

(** ** Frames of the entity *)

(** The codes that [send_state] looks up for an operating mode and for a fan
    speed. *)
Definition mode_code (hvac_mode : string) : Z :=
  default 1 (pydict [(HVAC_MODE_OFF, 0);
                     (HVAC_MODE_FAN_ONLY, 0);
                     (HVAC_MODE_COOL, 1);
                     (HVAC_MODE_DRY, 2);
                     (HVAC_MODE_HEAT_COOL, 3);
                     (HVAC_MODE_HEAT, 4)]
               !! hvac_mode).

Definition fan_code (fan_mode : string) : Z :=
  default 0 (pydict [(FAN_AUTO, 0); (FAN_LOW, 1); (FAN_MEDIUM, 2); (FAN_HIGH, 3)]
               !! fan_mode).

(** The frame that [send_state] builds from the entity's attributes. *)
Definition state_frame (self : TadiranClimate) : result (list Byte.byte) :=
  pack (send_filter (args_vars self)).

(** The frames handed to the transport so far. *)
Definition frames_sent (self : TadiranClimate) : list (list Byte.byte) :=
  dev_sent (dev (remote self)).

Definition link_up (self : TadiranClimate) : bool := dev_online (dev (remote self)).

(** Modelled from the spec: the field of the given name read out of a frame,
    by decoding the frame and reading the field at its shift and width. *)
Definition frame_field (data : list Byte.byte) (name : string) : option Z :=
  match decode_frame data, List.find (fun d => bool_decide (fs_name d = name)) unpack with
  | Some word, Some d => Some (read_field word d)
  | _, _ => None
  end.

(** The entity with the attribute that a call assigns, before anything is
    sent. *)
Definition assigned (c : call) (self : TadiranClimate) : TadiranClimate :=
  match c with
  | SetTemperature temp => set__target_temp temp self
  | SetFanMode fan_mode => set__fan_mode fan_mode self
  | SetHvacMode hvac_mode =>
      set__hvac_mode hvac_mode
        (if decide (hvac_mode = HVAC_MODE_OFF)
         then set__last_hvac_mode hvac_mode self else self)
  | SetSwingMode swing_mode => set__swing_mode swing_mode self
  | AsyncTurnOn =>
      set__hvac_mode (_last_hvac_mode self)
        (if decide (_last_hvac_mode self = HVAC_MODE_OFF)
         then set__last_hvac_mode (_last_hvac_mode self) self else self)
  end.

(** * Properties *)

(** Case analysis on a membership hypothesis [H : d ∈ unpack]: one goal per
    entry of the table. *)
Ltac table_cases H :=
  unfold unpack in H; rewrite !elem_of_cons, elem_of_nil in H;
  destruct_or!; subst; try contradiction.

(** ** Binary text of a non-negative integer *)

Lemma bin_digits_padded_lookup (p : positive) (n i : nat) :
  (i < length (bin_digits p) + n)%nat ->
  (bin_digits p ++ replicate n "0"%char) !! i
  = Some (bitchar (Z.testbit (Zpos p) (Z.of_nat i))).
Proof.
  revert i. induction p as [q IH | q IH | ]; intros i Hi; simpl in Hi.
  - destruct i as [| j]; [reflexivity |].
    rewrite Pos2Z.inj_xI, Nat2Z.inj_succ, Z.testbit_odd_succ by lia.
    simpl. apply IH. lia.
  - destruct i as [| j]; [reflexivity |].
    rewrite Pos2Z.inj_xO, Nat2Z.inj_succ, Z.testbit_even_succ by lia.
    simpl. apply IH. lia.
  - destruct i as [| j]; [reflexivity |].
    change (Z.pos 1) with (2 * 0 + 1).
    rewrite Nat2Z.inj_succ, Z.testbit_odd_succ, Z.testbit_0_l by lia.
    simpl. apply lookup_replicate_2. lia.
Qed.

Lemma bin_repr_nonempty (i : Z) : (1 <= length (bin_repr i))%nat.
Proof.
  assert (H : forall p, (1 <= length (bin_digits p))%nat)
    by (intros p; destruct p; simpl; lia).
  destruct i as [| p | p]; simpl; [lia | |]; rewrite length_reverse; apply H.
Qed.

(** The formatted text is never shorter than the requested width. *)
Lemma format_b_length (width : nat) (i : Z) :
  (width <= length (format_b width i))%nat.
Proof.
  unfold format_b. pose proof (bin_repr_nonempty i) as H.
  destruct (i <? 0); simpl; rewrite length_app, length_replicate; lia.
Qed.

(** For a non-negative value the reversed text holds bit [i] of the value
    at index [i], for every index below the width. *)
Lemma reverse_format_b_lookup (width : nat) (v : Z) (i : nat) :
  0 <= v -> (i < width)%nat ->
  reverse (format_b width v) !! i = Some (bitchar (Z.testbit v (Z.of_nat i))).
Proof.
  intros Hv Hi. unfold format_b.
  destruct (Z.ltb_spec v 0) as [Hneg | _]; [lia |].
  rewrite reverse_app, reverse_replicate.
  destruct v as [| p | p]; [| | lia].
  - simpl. rewrite Z.testbit_0_l.
    destruct i as [| j]; [reflexivity |].
    simpl. apply lookup_replicate_2. lia.
  - unfold bin_repr. rewrite reverse_involutive, length_reverse.
    apply bin_digits_padded_lookup. lia.
Qed.

(** ** The loops of [pack] *)

(** The inner loop, started at index [a]: it overwrites the positions
    [start + a .. start + a + n - 1] and nothing else. *)
Lemma copy_loop_spec (v : list ascii) (start : nat) (n a : nat) (bits : list ascii) :
  (a + n <= length v)%nat ->
  (start + a + n <= length bits)%nat ->
  exists bits',
    for_each (fun bits i => let* c := getitem v i in setitem bits (start + i) c)
             (seq a n) bits = Ok bits'
    /\ length bits' = length bits
    /\ forall p, bits' !! p =
                 if decide (start + a <= p < start + a + n)%nat
                 then v !! (p - start)%nat else bits !! p.
Proof.
  revert a bits. induction n as [| n IH]; intros a bits Hv Hb.
  - exists bits. split; [reflexivity |]. split; [reflexivity |].
    intros p. case_decide; [lia | reflexivity].
  - destruct (lookup_lt_is_Some_2 v a) as [c Hc]; [lia |].
    simpl. unfold getitem at 1. rewrite Hc. simpl.
    unfold setitem at 1. rewrite decide_True by lia. simpl.
    destruct (IH (S a) (<[(start + a)%nat := c]> bits)) as (bits' & Hrun & Hlen & Hget).
    { lia. }
    { rewrite length_insert. lia. }
    exists bits'. split; [exact Hrun |].
    split; [rewrite Hlen; apply length_insert |].
    intros p. rewrite Hget.
    destruct (decide (p = start + a)%nat) as [-> | Hne].
    + rewrite decide_False by lia. rewrite decide_True by lia.
      rewrite list_lookup_insert_eq by lia.
      replace (start + a - start)%nat with a by lia. symmetry. exact Hc.
    + rewrite list_lookup_insert_ne by lia.
      repeat case_decide; try lia; reflexivity.
Qed.

Section PackLoops.
Context (vals : gmap string Z).

(** One field: its own positions receive its text, the rest is kept. *)
Lemma write_field_spec (bits : list ascii) (d : FieldSpec) :
  (fs_shift d + fs_bits d <= length bits)%nat ->
  exists bits',
    write_field vals bits d = Ok bits'
    /\ length bits' = length bits
    /\ forall p, bits' !! p =
                 if decide (covers d p)
                 then field_text vals d !! (p - fs_shift d)%nat else bits !! p.
Proof.
  intros Hfit. unfold write_field.
  destruct (copy_loop_spec (field_text vals d) (fs_shift d) (fs_bits d) 0 bits)
    as (bits' & Hrun & Hlen & Hget).
  { unfold field_text. rewrite length_reverse. apply format_b_length. }
  { lia. }
  exists bits'. split; [exact Hrun |]. split; [exact Hlen |].
  intros p. rewrite Hget. unfold covers.
  repeat case_decide; try lia; reflexivity.
Qed.

Lemma apart_not_both (d1 d2 : FieldSpec) (p : nat) :
  apart d1 d2 -> covers d1 p -> covers d2 p -> False.
Proof. unfold apart, covers. lia. Qed.

(** The outer loop over any table whose fields fit the buffer. *)
Lemma table_loop_spec (l : list FieldSpec) (bits : list ascii) :
  Forall (fun d => fs_shift d + fs_bits d <= length bits)%nat l ->
  exists bits',
    for_each (write_field vals) l bits = Ok bits'
    /\ length bits' = length bits
    /\ (forall p, (forall d, d ∈ l -> ~ covers d p) -> bits' !! p = bits !! p)
    /\ (pairwise_apart l ->
        forall d p, d ∈ l -> covers d p ->
                    bits' !! p = field_text vals d !! (p - fs_shift d)%nat).
Proof.
  revert bits. induction l as [| d l IH]; intros bits Hfit.
  - exists bits. repeat split; try reflexivity.
    intros _ d p Hd. inversion Hd.
  - apply Forall_cons in Hfit as [Hd Hl].
    destruct (write_field_spec bits d Hd) as (bits1 & Hrun1 & Hlen1 & Hget1).
    destruct (IH bits1) as (bits' & Hrun & Hlen & Hkeep & Hown).
    { rewrite Hlen1. exact Hl. }
    exists bits'. simpl. rewrite Hrun1. simpl.
    split; [exact Hrun |]. split; [congruence |]. split.
    + intros p Hfree. rewrite Hkeep.
      * rewrite Hget1. rewrite decide_False; [reflexivity |].
        apply Hfree. left.
      * intros d' Hd'. apply Hfree. right. exact Hd'.
    + intros [Hhead Htail] d' p Hd' Hcov.
      apply elem_of_cons in Hd' as [-> | Hin].
      * rewrite Hkeep.
        -- rewrite Hget1. rewrite decide_True by exact Hcov. reflexivity.
        -- intros d2 Hd2 Hcov2. rewrite Forall_forall in Hhead.
           exact (apart_not_both d d2 p (Hhead d2 Hd2) Hcov Hcov2).
      * apply Hown; assumption.
Qed.

(** The table of the module satisfies both conditions. *)
Lemma unpack_fits : Forall (fun d => fs_shift d + fs_bits d <= 35)%nat unpack.
Proof. compute_done. Qed.

Lemma unpack_pairwise_apart : pairwise_apart unpack.
Proof.
  unfold unpack. simpl.
  repeat split; repeat (apply Forall_cons; split); try apply Forall_nil;
    unfold apart; simpl; lia.
Qed.

(** The command word of [pack], position by position. *)
Lemma pack_bits_spec :
  exists word,
    pack_bits vals = Ok word
    /\ length word = 35%nat
    /\ (forall p, (p < 35)%nat -> (forall d, d ∈ unpack -> ~ covers d p) ->
                  word !! p = Some "0"%char)
    /\ (forall d p, d ∈ unpack -> covers d p ->
                    word !! p = field_text vals d !! (p - fs_shift d)%nat).
Proof.
  destruct (table_loop_spec unpack (replicate 35 "0"%char))
    as (word & Hrun & Hlen & Hkeep & Hown).
  { rewrite length_replicate. exact unpack_fits. }
  exists word. split; [exact Hrun |].
  split; [rewrite Hlen; apply length_replicate |]. split.
  - intros p Hp Hfree. rewrite Hkeep by exact Hfree.
    apply lookup_replicate_2. exact Hp.
  - apply Hown. exact unpack_pairwise_apart.
Qed.

End PackLoops.

(** Two maps that give every field the same text in the first [bits]
    characters give the same command word. *)
Lemma pack_bits_ext (vals1 vals2 : gmap string Z) :
  (forall d i, d ∈ unpack -> (i < fs_bits d)%nat ->
               field_text vals1 d !! i = field_text vals2 d !! i) ->
  pack_bits vals1 = pack_bits vals2.
Proof.
  intros Hsame.
  destruct (pack_bits_spec vals1) as (w1 & -> & Hlen1 & Hfree1 & Hown1).
  destruct (pack_bits_spec vals2) as (w2 & -> & Hlen2 & Hfree2 & Hown2).
  f_equal. apply list_eq. intros p.
  destruct (decide (p < 35)%nat) as [Hp | Hp].
  - destruct (decide (Exists (fun d => covers d p) unpack)) as [Hex | Hno].
    + apply Exists_exists in Hex as (d & Hd & Hcov).
      rewrite (Hown1 d p Hd Hcov), (Hown2 d p Hd Hcov).
      apply Hsame; [exact Hd |]. unfold covers in Hcov. lia.
    + rewrite Hfree1, Hfree2; try reflexivity; try exact Hp;
        intros d Hd Hcov; apply Hno, Exists_exists; exists d; split; assumption.
  - rewrite !lookup_ge_None_2 by lia. reflexivity.
Qed.

Lemma field_text_lookup (vals : gmap string Z) (d : FieldSpec) (i : nat) :
  0 <= resolve vals d -> (i < fs_bits d)%nat ->
  field_text vals d !! i = Some (bitchar (Z.testbit (resolve vals d) (Z.of_nat i))).
Proof. intros Hv Hi. unfold field_text. apply reverse_format_b_lookup; assumption. Qed.

Lemma lsb_first_lookup (width : nat) (v : Z) (i : nat) :
  (i < width)%nat ->
  lsb_first width v !! i = Some (bitchar (Z.testbit v (Z.of_nat i))).
Proof.
  intros Hi. unfold lsb_first.
  rewrite list_lookup_fmap, lookup_seq_lt by exact Hi. reflexivity.
Qed.

Lemma lsb_first_length (width : nat) (v : Z) : length (lsb_first width v) = width.
Proof. unfold lsb_first. rewrite length_map, length_seq. reflexivity. Qed.

(** The slice of the command word that belongs to a field with a
    non-negative value. *)
Lemma field_slice (vals : gmap string Z) (d : FieldSpec) (word : list ascii) :
  pack_bits vals = Ok word -> d ∈ unpack -> 0 <= resolve vals d ->
  take (fs_bits d) (drop (fs_shift d) word) = lsb_first (fs_bits d) (resolve vals d).
Proof.
  intros Hrun Hd Hv.
  destruct (pack_bits_spec vals) as (w & Hw & Hlen & _ & Hown).
  rewrite Hrun in Hw. injection Hw as <-.
  apply list_eq. intros i.
  destruct (decide (i < fs_bits d)%nat) as [Hi | Hi].
  - rewrite lookup_take_lt, lookup_drop by exact Hi.
    rewrite (Hown d (fs_shift d + i)%nat Hd) by (unfold covers; lia).
    replace (fs_shift d + i - fs_shift d)%nat with i by lia.
    rewrite field_text_lookup, lsb_first_lookup by assumption. reflexivity.
  - rewrite lookup_take_ge by lia.
    symmetry. apply lookup_ge_None_2. rewrite lsb_first_length. lia.
Qed.

Lemma unpack_name_inj (d d' : FieldSpec) :
  d ∈ unpack -> d' ∈ unpack -> fs_name d = fs_name d' -> d = d'.
Proof.
  intros Hd Hd' Hname.
  table_cases Hd; table_cases Hd'; simpl in Hname; try reflexivity; discriminate.
Qed.

(** ** The pulse train *)

Lemma fromhex_PREFIX : fromhex PREFIX = Ok preamble.
Proof. reflexivity. Qed.

Lemma fromhex_SUFFIX : fromhex SUFFIX = Ok trailer.
Proof. reflexivity. Qed.

Lemma pulse_loop (bits : list ascii) (data : list Byte.byte) :
  fold_left (fun data x =>
               (data ++ [Byte.x16])
                 ++ [if decide (x = "0"%char) then Byte.x13 else Byte.x37])
            bits data
  = data ++ flat_map pulse_pair bits.
Proof.
  revert data. induction bits as [| x bits IH]; intros data; simpl.
  - rewrite app_nil_r. reflexivity.
  - rewrite IH, <- !app_assoc. reflexivity.
Qed.

Lemma encode_spec (bits : list ascii) :
  encode bits = Ok (preamble ++ flat_map pulse_pair bits ++ trailer).
Proof.
  unfold encode. rewrite fromhex_PREFIX, fromhex_SUFFIX. simpl.
  rewrite pulse_loop, <- app_assoc. reflexivity.
Qed.

Lemma flat_map_pulse_length (bits : list ascii) :
  length (flat_map pulse_pair bits) = (2 * length bits)%nat.
Proof. induction bits as [| x bits IH]; simpl; [reflexivity | rewrite IH; lia]. Qed.

Lemma flat_map_pulse_lookup (bits : list ascii) (i : nat) (c : ascii) :
  bits !! i = Some c ->
  flat_map pulse_pair bits !! (2 * i)%nat = Some Byte.x16
  /\ flat_map pulse_pair bits !! (2 * i + 1)%nat
     = Some (if decide (c = "0"%char) then Byte.x13 else Byte.x37).
Proof.
  revert i. induction bits as [| x bits IH]; intros i Hi; [inversion Hi |].
  destruct i as [| j].
  - injection Hi as ->. split; reflexivity.
  - replace (2 * S j)%nat with (S (S (2 * j))) by lia.
    replace (S (S (2 * j)) + 1)%nat with (S (S (2 * j + 1))) by lia.
    simpl in Hi. apply IH in Hi. exact Hi.
Qed.

(** [pack] never raises, and its frame is the preamble, the pulse pairs of
    the command word and the trailer. *)
Lemma pack_spec (vals : gmap string Z) :
  exists word,
    pack_bits vals = Ok word
    /\ length word = 35%nat
    /\ pack vals = Ok (preamble ++ flat_map pulse_pair word ++ trailer).
Proof.
  destruct (pack_bits_spec vals) as (word & Hrun & Hlen & _).
  exists word. split; [exact Hrun |]. split; [exact Hlen |].
  unfold pack. rewrite Hrun. simpl. apply encode_spec.
Qed.

Lemma decode_pairs_pulses (bits : list ascii) (rest : list Byte.byte) :
  decode_pairs (length bits) (flat_map pulse_pair bits ++ rest) = Some (map is_one bits).
Proof.
  induction bits as [| x bits IH]; [reflexivity |].
  simpl. unfold is_one at 1.
  destruct (decide (x = "0"%char)) as [Hx | Hx].
  - rewrite bool_decide_eq_true_2 by exact Hx. simpl. rewrite IH. reflexivity.
  - rewrite bool_decide_eq_false_2 by exact Hx. simpl. rewrite IH. reflexivity.
Qed.

Lemma bits_value_testbits_from (n a : nat) (v : Z) :
  bits_value (map (fun i => Z.testbit v (Z.of_nat i)) (seq a n))
  = (v / 2 ^ Z.of_nat a) mod 2 ^ Z.of_nat n.
Proof.
  revert a. induction n as [| n IH]; intros a.
  - simpl. rewrite Z.mod_1_r. reflexivity.
  - simpl seq. simpl map. unfold bits_value. simpl foldr.
    fold (bits_value (map (fun i => Z.testbit v (Z.of_nat i)) (seq (S a) n))).
    rewrite IH, Z.testbit_spec' by lia.
    rewrite (Nat2Z.inj_succ n), (Nat2Z.inj_succ a), !Z.pow_succ_r by lia.
    rewrite (Z.rem_mul_r _ 2 (2 ^ Z.of_nat n)) by lia.
    rewrite (Z.mul_comm 2 (2 ^ Z.of_nat a)), <- Z.div_div by lia.
    reflexivity.
Qed.

Lemma bits_value_testbits (n : nat) (v : Z) :
  bits_value (map (fun i => Z.testbit v (Z.of_nat i)) (seq 0 n)) = v mod 2 ^ Z.of_nat n.
Proof. rewrite bits_value_testbits_from. simpl. rewrite Z.div_1_r. reflexivity. Qed.

(** ** The field table *)

Lemma apart_sym (d1 d2 : FieldSpec) : apart d1 d2 -> apart d2 d1.
Proof. unfold apart. lia. Qed.

Lemma pairwise_apart_lookup (l : list FieldSpec) (i j : nat) (d1 d2 : FieldSpec) :
  pairwise_apart l -> l !! i = Some d1 -> l !! j = Some d2 -> i <> j -> apart d1 d2.
Proof.
  revert i j. induction l as [| d l IH]; intros i j Hl Hi Hj Hne; [inversion Hi |].
  destruct Hl as [Hhead Htail]. rewrite Forall_forall in Hhead.
  destruct i as [| i], j as [| j]; simpl in Hi, Hj.
  - contradiction.
  - injection Hi as <-. apply Hhead. eapply list_elem_of_lookup_2. exact Hj.
  - injection Hj as <-. apply apart_sym, Hhead. eapply list_elem_of_lookup_2. exact Hi.
  - apply (IH i j); auto.
Qed.

(** C9: the static field table satisfies the schema invariant: every field
    ends within the 35 positions of the command word, and two different
    entries of the table never occupy the same position. *)
Theorem unpack_schema_invariant (i j : nat) (d1 d2 : FieldSpec) :
  unpack !! i = Some d1 -> unpack !! j = Some d2 ->
  (fs_shift d1 + fs_bits d1 <= 35)%nat
  /\ (i <> j -> forall p, ~ (covers d1 p /\ covers d2 p)).
Proof.
  intros Hi Hj. split.
  - pose proof unpack_fits as Hfit. rewrite Forall_forall in Hfit.
    apply Hfit. eapply list_elem_of_lookup_2. exact Hi.
  - intros Hne p [Hc1 Hc2].
    exact (apart_not_both d1 d2 p
             (pairwise_apart_lookup unpack i j d1 d2 unpack_pairwise_apart Hi Hj Hne)
             Hc1 Hc2).
Qed.

Lemma unpack_schema_invariant_witness :
  unpack !! 0%nat = Some (mkField "unknown2" 27 8 0x4A)
  /\ unpack !! 4%nat = Some (mkField "temp" 8 4 20)
  /\ (27 + 8 <= 35)%nat
  /\ (0%nat <> 4%nat ->
      forall p, ~ (covers (mkField "unknown2" 27 8 0x4A) p
                   /\ covers (mkField "temp" 8 4 20) p)).
Proof.
  split; [reflexivity |]. split; [reflexivity |].
  exact (unpack_schema_invariant 0 4 (mkField "unknown2" 27 8 0x4A)
           (mkField "temp" 8 4 20) eq_refl eq_refl).
Defined.

(** ** The packer *)

(** C7: for a field whose resolved value fits its width, the command word
    holds that value as a [bits]-wide binary string, least significant bit
    first, from position [shift] on; the word has 35 positions and every
    position that no field covers holds the character 0. *)
Theorem pack_field_layout (vals : gmap string Z) (d : FieldSpec) :
  d ∈ unpack ->
  0 <= resolve vals d < 2 ^ Z.of_nat (fs_bits d) ->
  exists word,
    pack_bits vals = Ok word
    /\ length word = 35%nat
    /\ take (fs_bits d) (drop (fs_shift d) word) = lsb_first (fs_bits d) (resolve vals d)
    /\ (forall p, (p < 35)%nat -> (forall d', d' ∈ unpack -> ~ covers d' p) ->
                  word !! p = Some "0"%char).
Proof.
  intros Hd [Hv _].
  destruct (pack_bits_spec vals) as (word & Hrun & Hlen & Hfree & _).
  exists word. split; [exact Hrun |]. split; [exact Hlen |].
  split; [| exact Hfree].
  apply (field_slice vals d word Hrun Hd Hv).
Qed.

Lemma pack_field_layout_witness :
  mkField "temp" 8 4 20 ∈ unpack
  /\ 0 <= resolve {[ "temp"%string := 9 ]} (mkField "temp" 8 4 20) < 2 ^ Z.of_nat 4
  /\ exists word,
       pack_bits {[ "temp"%string := 9 ]} = Ok word
       /\ length word = 35%nat
       /\ take 4 (drop 8 word) = ["1"; "0"; "0"; "1"]%char
       /\ (forall p, (p < 35)%nat -> (forall d', d' ∈ unpack -> ~ covers d' p) ->
                     word !! p = Some "0"%char).
Proof.
  assert (Hin : mkField "temp" 8 4 20 ∈ unpack) by (unfold unpack; set_solver).
  assert (Hfit : 0 <= resolve {[ "temp"%string := 9 ]} (mkField "temp" 8 4 20)
                 < 2 ^ Z.of_nat 4) by (vm_compute; split; [intro H; discriminate H | reflexivity]).
  split; [exact Hin |]. split; [exact Hfit |].
  exact (pack_field_layout {[ "temp"%string := 9 ]} (mkField "temp" 8 4 20) Hin Hfit).
Defined.

Lemma pack_ext (vals1 vals2 : gmap string Z) :
  (forall d i, d ∈ unpack -> (i < fs_bits d)%nat ->
               field_text vals1 d !! i = field_text vals2 d !! i) ->
  pack vals1 = pack vals2.
Proof. intros Hsame. unfold pack. rewrite (pack_bits_ext vals1 vals2 Hsame). reflexivity. Qed.

Lemma pack_length (vals : gmap string Z) (data : list Byte.byte) :
  pack vals = Ok data -> length data = 92%nat.
Proof.
  destruct (pack_spec vals) as (word & _ & Hlen & Hpack). rewrite Hpack.
  intros Heq. injection Heq as Heq. subst data.
  simpl. rewrite length_app, flat_map_pulse_length, Hlen. reflexivity.
Qed.

(** C6: two maps that resolve every field of the table to the same value
    (whether the values fit or not) yield the same frame, byte for byte, and
    the frame always has the length of the preamble, plus two bytes for each
    of the 35 positions, plus the length of the trailer: 92 bytes. *)
Theorem pack_deterministic_fixed_length (vals1 vals2 : gmap string Z) :
  (forall d, d ∈ unpack -> resolve vals1 d = resolve vals2 d) ->
  pack vals1 = pack vals2
  /\ exists data,
       pack vals1 = Ok data
       /\ length data = (length preamble + 2 * 35 + length trailer)%nat
       /\ length data = 92%nat.
Proof.
  intros Hagree. split.
  - apply pack_ext. intros d i Hd _. unfold field_text. rewrite (Hagree d Hd). reflexivity.
  - destruct (pack_spec vals1) as (word & _ & _ & Hpack).
    eexists. split; [exact Hpack |].
    rewrite (pack_length vals1 _ Hpack). split; reflexivity.
Qed.

Lemma pack_deterministic_fixed_length_witness :
  (forall d, d ∈ unpack -> resolve ∅ d = resolve {[ "mode"%string := 1 ]} d)
  /\ pack ∅ = pack {[ "mode"%string := 1 ]}
  /\ exists data,
       pack ∅ = Ok data
       /\ length data = (length preamble + 2 * 35 + length trailer)%nat
       /\ length data = 92%nat.
Proof.
  assert (Hagree : forall d, d ∈ unpack -> resolve ∅ d = resolve {[ "mode"%string := 1 ]} d).
  { intros d Hd. table_cases Hd; reflexivity. }
  split; [exact Hagree |].
  exact (pack_deterministic_fixed_length ∅ {[ "mode"%string := 1 ]} Hagree).
Defined.

(** C1, as the code has it: [pack] raises nothing, whatever the integers in
    the map, negative ones included: it always returns a frame.  A
    non-negative resolved value of a field is cut to its low [bits] bits:
    the frame returned is also the frame returned with the value reduced
    modulo [2 ^ bits] in that field. *)
Theorem pack_keeps_low_bits (vals : gmap string Z) :
  exists data,
    pack vals = Ok data
    /\ forall d, d ∈ unpack -> 0 <= resolve vals d ->
         pack (<[fs_name d := resolve vals d mod 2 ^ Z.of_nat (fs_bits d)]> vals)
         = Ok data.
Proof.
  destruct (pack_spec vals) as (word & _ & _ & Hpack).
  eexists. split; [exact Hpack |].
  intros d Hd Hv. rewrite <- Hpack. symmetry.
  apply pack_ext. intros d' i Hd' Hi.
  destruct (decide (fs_name d' = fs_name d)) as [Hname | Hname].
  - assert (d' = d) as -> by (apply unpack_name_inj; assumption).
    set (v := resolve vals d) in *.
    assert (Hres : resolve (<[fs_name d := v mod 2 ^ Z.of_nat (fs_bits d)]> vals) d
                   = v mod 2 ^ Z.of_nat (fs_bits d))
      by (unfold resolve; rewrite lookup_insert_eq; reflexivity).
    assert (Hv' : 0 <= v mod 2 ^ Z.of_nat (fs_bits d))
      by (apply Z.mod_pos_bound; lia).
    rewrite !field_text_lookup; try assumption; [| rewrite Hres; exact Hv'].
    rewrite Hres. fold v. rewrite Z.mod_pow2_bits_low by lia. reflexivity.
  - unfold field_text, resolve. rewrite lookup_insert_ne by congruence. reflexivity.
Qed.

Lemma pack_keeps_low_bits_witness :
  exists data,
    pack {[ "temp"%string := 24; "mode"%string := -1 ]} = Ok data
    /\ resolve {[ "temp"%string := 24; "mode"%string := -1 ]} (mkField "mode" 0 3 1) < 0
    /\ mkField "temp" 8 4 20 ∈ unpack
    /\ 0 <= resolve {[ "temp"%string := 24; "mode"%string := -1 ]} (mkField "temp" 8 4 20)
    /\ pack (<["temp"%string := 8]> {[ "temp"%string := 24; "mode"%string := -1 ]})
       = Ok data.
Proof.
  assert (Hin : mkField "temp" 8 4 20 ∈ unpack) by (unfold unpack; set_solver).
  assert (Hv : 0 <= resolve {[ "temp"%string := 24; "mode"%string := -1 ]}
                      (mkField "temp" 8 4 20))
    by (vm_compute; intro H; discriminate H).
  destruct (pack_keeps_low_bits {[ "temp"%string := 24; "mode"%string := -1 ]})
    as (data & Hpack & Hlow).
  exists data. split; [exact Hpack |]. split; [reflexivity |].
  split; [exact Hin |]. split; [exact Hv |].
  exact (Hlow (mkField "temp" 8 4 20) Hin Hv).
Defined.

(** C1 as stated fails: the value 9 does not fit the three bits of [mode],
    and the value -1 is negative, yet [pack] returns a frame for both; the
    frame for 9 is the frame for 1. *)
Lemma pack_oversized_not_rejected :
  resolve {[ "mode"%string := 9 ]} (mkField "mode" 0 3 1) >= 2 ^ Z.of_nat 3
  /\ (exists data, pack {[ "mode"%string := 9 ]} = Ok data
                   /\ pack {[ "mode"%string := 1 ]} = Ok data)
  /\ resolve {[ "mode"%string := -1 ]} (mkField "mode" 0 3 1) < 0
  /\ (exists data, pack {[ "mode"%string := -1 ]} = Ok data).
Proof.
  split; [vm_compute; intro H; discriminate H |].
  split; [eexists; split; vm_compute; reflexivity |].
  split; [reflexivity |].
  eexists; vm_compute; reflexivity.
Qed.

(** ** The encoder *)

(** C8: the frame starts with the eight preamble bytes and ends with the
    fourteen trailer bytes, byte for byte; between them, position [i] of the
    command word (0 to 34, ascending) is the pair at offsets [8 + 2 i] and
    [9 + 2 i]: the marker 0x16, then 19 for a 0 and 55 for a 1. *)
Theorem pack_pulse_train (vals : gmap string Z) :
  exists word data,
    pack_bits vals = Ok word
    /\ pack vals = Ok data
    /\ length word = 35%nat
    /\ take 8 data = preamble
    /\ drop (8 + 2 * 35) data = trailer
    /\ forall i c, word !! i = Some c ->
         data !! (8 + 2 * i)%nat = Some Byte.x16
         /\ (c = "0"%char -> data !! (8 + 2 * i + 1)%nat = Some Byte.x13)
         /\ (c = "1"%char -> data !! (8 + 2 * i + 1)%nat = Some Byte.x37).
Proof.
  destruct (pack_spec vals) as (word & Hrun & Hlen & Hpack).
  exists word. eexists. split; [exact Hrun |]. split; [exact Hpack |].
  split; [exact Hlen |]. split; [reflexivity |]. split.
  - change (8 + 2 * 35)%nat with (length preamble + 70)%nat.
    rewrite <- drop_drop, drop_app_length.
    replace 70%nat with (length (flat_map pulse_pair word))
      by (rewrite flat_map_pulse_length, Hlen; reflexivity).
    apply drop_app_length.
  - intros i c Hc.
    destruct (flat_map_pulse_lookup word i c Hc) as [Hmark Hcode].
    assert (Hi : (i < length word)%nat) by (eapply lookup_lt_Some; exact Hc).
    assert (Hshift : forall k, (k < 2 * length word)%nat ->
              (preamble ++ flat_map pulse_pair word ++ trailer) !! (8 + k)%nat
              = flat_map pulse_pair word !! k).
    { intros k Hk. change 8%nat with (length preamble).
      rewrite lookup_app_r by lia.
      replace (length preamble + k - length preamble)%nat with k by lia.
      apply lookup_app_l. rewrite flat_map_pulse_length. exact Hk. }
    split; [| split].
    + rewrite Hshift by lia. exact Hmark.
    + intros ->. rewrite <- Nat.add_assoc, Hshift by lia. exact Hcode.
    + intros ->. rewrite <- Nat.add_assoc, Hshift by lia. exact Hcode.
Qed.

(** ** Round trip *)

Lemma is_one_bitchar (b : bool) : is_one (bitchar b) = b.
Proof. destruct b; reflexivity. Qed.

Lemma decode_frame_pack (vals : gmap string Z) (word : list ascii) :
  pack_bits vals = Ok word ->
  exists data, pack vals = Ok data /\ decode_frame data = Some (map is_one word).
Proof.
  intros Hrun.
  destruct (pack_spec vals) as (w & Hw & Hlen & Hpack).
  rewrite Hrun in Hw. injection Hw as <-.
  eexists. split; [exact Hpack |].
  unfold decode_frame. rewrite drop_app_length, <- Hlen.
  apply decode_pairs_pulses.
Qed.

(** What the reading side finds in a field whose value is not negative. *)
Lemma read_field_pack (vals : gmap string Z) (word : list ascii) (d : FieldSpec) :
  pack_bits vals = Ok word -> d ∈ unpack -> 0 <= resolve vals d ->
  read_field (map is_one word) d = resolve vals d mod 2 ^ Z.of_nat (fs_bits d).
Proof.
  intros Hrun Hd Hv. unfold read_field.
  rewrite <- fmap_drop, <- fmap_take, (field_slice vals d word Hrun Hd Hv).
  unfold lsb_first.
  change (is_one <$> ?l) with (map is_one l). rewrite map_map.
  rewrite <- (bits_value_testbits (fs_bits d) (resolve vals d)).
  f_equal. apply map_ext. intros i. apply is_one_bitchar.
Qed.

Lemma unpack_defaults_read_back (d : FieldSpec) :
  d ∈ unpack ->
  0 <= fs_default d
  /\ fs_default d mod 2 ^ Z.of_nat (fs_bits d)
     = if decide (fs_name d = "temp"%string) then 4 else fs_default d.
Proof.
  intros Hd. table_cases Hd; split; (reflexivity || (simpl; lia)).
Qed.

(** C5, as the code has it: for a map whose present values fit their
    fields, decoding the frame and reading each field at its shift and
    width gives back the value of every present field; for an omitted field
    it gives back the table default, except for [temp], whose default 20
    does not fit its four bits and is read back as 4. *)
Theorem pack_decode_roundtrip (vals : gmap string Z) :
  (forall d v, d ∈ unpack -> vals !! fs_name d = Some v ->
               0 <= v < 2 ^ Z.of_nat (fs_bits d)) ->
  exists data word,
    pack vals = Ok data
    /\ decode_frame data = Some word
    /\ forall d, d ∈ unpack ->
         read_field word d =
         match vals !! fs_name d with
         | Some v => v
         | None => if decide (fs_name d = "temp"%string) then 4 else fs_default d
         end.
Proof.
  intros Hfit.
  destruct (pack_bits_spec vals) as (word & Hrun & _).
  destruct (decode_frame_pack vals word Hrun) as (data & Hpack & Hdec).
  exists data, (map is_one word). split; [exact Hpack |]. split; [exact Hdec |].
  intros d Hd.
  destruct (unpack_defaults_read_back d Hd) as [Hdef Hmod].
  pose proof (read_field_pack vals word d Hrun Hd) as Hread.
  unfold resolve in Hread.
  destruct (vals !! fs_name d) as [v |] eqn:Hv; simpl in Hread.
  - destruct (Hfit d v Hd Hv) as [Hlo Hhi].
    rewrite Hread by exact Hlo. apply Z.mod_small. lia.
  - rewrite Hread by exact Hdef. exact Hmod.
Qed.

Lemma pack_decode_roundtrip_witness :
  (forall d v, d ∈ unpack -> ({[ "fan"%string := 3 ]} : gmap string Z) !! fs_name d = Some v ->
               0 <= v < 2 ^ Z.of_nat (fs_bits d))
  /\ exists data word,
       pack {[ "fan"%string := 3 ]} = Ok data
       /\ decode_frame data = Some word
       /\ forall d, d ∈ unpack ->
            read_field word d =
            match ({[ "fan"%string := 3 ]} : gmap string Z) !! fs_name d with
            | Some v => v
            | None => if decide (fs_name d = "temp"%string) then 4 else fs_default d
            end.
Proof.
  assert (Hfit : forall d v, d ∈ unpack ->
            ({[ "fan"%string := 3 ]} : gmap string Z) !! fs_name d = Some v ->
            0 <= v < 2 ^ Z.of_nat (fs_bits d)).
  { intros d v Hd. table_cases Hd; intros Hv; vm_compute in Hv;
      first [discriminate Hv
            | injection Hv as <-; vm_compute; split; [intro H; discriminate H | reflexivity]]. }
  split; [exact Hfit |].
  exact (pack_decode_roundtrip {[ "fan"%string := 3 ]} Hfit).
Defined.

(** C5 as stated fails on the empty map: [temp] is omitted, its default is
    20, and the field read back from the frame is 4. *)
Lemma roundtrip_loses_temp_default :
  exists data word,
    pack ∅ = Ok data
    /\ decode_frame data = Some word
    /\ resolve ∅ (mkField "temp" 8 4 20) = 20
    /\ read_field word (mkField "temp" 8 4 20) = 4.
Proof.
  eexists. eexists.
  split; [vm_compute; reflexivity |].
  split; [vm_compute; reflexivity |].
  split; reflexivity.
Qed.

(** ** The device session *)

Lemma send_filter_loop_lookup (args_vars : gmap string pyval) (l : list FieldSpec)
    (data : gmap string Z) (k : string) :
  fold_left (fun data k =>
               let arg := fs_name k in
               let val := default PyNone (args_vars !! arg) in
               match val with
               | PyInt z => <[arg := z]> data
               | PyNone => data
               end) l data !! k
  = if decide (k ∈ map fs_name l)
    then match get_or_None args_vars k with
         | PyInt z => Some z
         | PyNone => data !! k
         end
    else data !! k.
Proof.
  revert data. induction l as [| d l IH]; intros data.
  - simpl fold_left. simpl map.
    case_decide as Hk; [apply elem_of_nil in Hk; contradiction | reflexivity].
  - simpl fold_left. rewrite IH. simpl map. unfold get_or_None.
    destruct (decide (fs_name d = k)) as [<- | Hne].
    + rewrite (decide_True (P := fs_name d ∈ fs_name d :: _)) by (apply list_elem_of_here).
      destruct (default PyNone (args_vars !! fs_name d)) as [| z].
      * case_decide; reflexivity.
      * rewrite lookup_insert_eq. case_decide; reflexivity.
    + assert (Hstep : (match default PyNone (args_vars !! fs_name d) with
                       | PyInt z => <[fs_name d := z]> data
                       | PyNone => data
                       end) !! k = data !! k).
      { destruct (default PyNone (args_vars !! fs_name d)); [reflexivity |].
        apply lookup_insert_ne. exact Hne. }
      rewrite Hstep.
      destruct (decide (k ∈ map fs_name l)) as [Hin | Hout].
      * rewrite decide_True by (apply list_elem_of_further; exact Hin). reflexivity.
      * rewrite decide_False; [reflexivity |].
        intros Hin. apply elem_of_cons in Hin as [-> | Hin]; [congruence | contradiction].
Qed.

(** The dictionary handed to [pack]: the integer entries of the argument
    whose key is a field name. *)
Lemma send_filter_lookup (args_vars : gmap string pyval) (k : string) :
  send_filter args_vars !! k
  = if decide (k ∈ map fs_name unpack)
    then match get_or_None args_vars k with
         | PyInt z => Some z
         | PyNone => None
         end
    else None.
Proof.
  unfold send_filter. rewrite send_filter_loop_lookup, lookup_empty. reflexivity.
Qed.

(** C10: what [send] hands to the transport depends only on the entries of
    the argument whose key is one of the nine field names and whose value is
    not [None]: two arguments that agree on those entries build the same
    dictionary, the same frame and the same outcome of [send]. *)
Theorem send_depends_on_table_entries (self : BroadlinkTadiran)
    (args1 args2 : gmap string pyval) :
  (forall d, d ∈ unpack ->
             get_or_None args1 (fs_name d) = get_or_None args2 (fs_name d)) ->
  send_filter args1 = send_filter args2
  /\ pack (send_filter args1) = pack (send_filter args2)
  /\ send self args1 = send self args2.
Proof.
  intros Hagree.
  assert (Heq : send_filter args1 = send_filter args2).
  { apply map_eq. intros k. rewrite !send_filter_lookup.
    case_decide as Hk; [| reflexivity].
    apply list_elem_of_fmap in Hk as (d & -> & Hd).
    rewrite (Hagree d Hd). reflexivity. }
  split; [exact Heq |]. split; [rewrite Heq; reflexivity |].
  unfold send. rewrite Heq. reflexivity.
Qed.

Lemma send_depends_on_table_entries_witness :
  let self := mkSession (mkDevice true []) true in
  let args1 : gmap string pyval :=
    {[ "mode"%string := PyInt 2; "colour"%string := PyInt 7 ]} in
  let args2 : gmap string pyval :=
    {[ "mode"%string := PyInt 2; "temp"%string := PyNone ]} in
  (forall d, d ∈ unpack ->
             get_or_None args1 (fs_name d) = get_or_None args2 (fs_name d))
  /\ send_filter args1 = send_filter args2
  /\ pack (send_filter args1) = pack (send_filter args2)
  /\ send self args1 = send self args2.
Proof.
  intros self args1 args2.
  assert (Hagree : forall d, d ∈ unpack ->
            get_or_None args1 (fs_name d) = get_or_None args2 (fs_name d)).
  { intros d Hd. table_cases Hd; vm_compute; reflexivity. }
  split; [exact Hagree |].
  exact (send_depends_on_table_entries self args1 args2 Hagree).
Defined.

(** C4, as the code has it: construction raises [CannotConnect] when
    creating the device handle raises [DeviceOfflineError]; when the
    authentication call returns, construction raises nothing and
    [available] is the value returned, true exactly when the handshake was
    accepted, so that a rejected handshake gives a session that is not
    available; and a session that construction returns always carries what
    the authentication call returned. *)
Theorem session_construction (lib : broadlink) (ip : string) (rmtype : Z) :
  (gendevice lib rmtype (ip, 80) "000000000000"%string = Raise DeviceOfflineError ->
   BroadlinkTadiran_init lib ip rmtype = Raise CannotConnect)
  /\ (forall d b,
        gendevice lib rmtype (ip, 80) "000000000000"%string = Ok d ->
        auth lib d = Ok b ->
        exists s, BroadlinkTadiran_init lib ip rmtype = Ok s
                  /\ dev s = d
                  /\ (available s = true <-> b = true))
  /\ (forall s,
        BroadlinkTadiran_init lib ip rmtype = Ok s ->
        gendevice lib rmtype (ip, 80) "000000000000"%string = Ok (dev s)
        /\ auth lib (dev s) = Ok (available s)).
Proof.
  unfold BroadlinkTadiran_init. split; [| split].
  - intros ->. reflexivity.
  - intros d b -> Hauth. simpl. rewrite Hauth. simpl.
    eexists. split; [reflexivity |]. split; [reflexivity |]. reflexivity.
  - intros s.
    destruct (gendevice lib rmtype (ip, 80) "000000000000"%string) as [d | e]; simpl.
    + destruct (auth lib d) as [a | e] eqn:Hauth; simpl.
      * intros [= <-]. split; [reflexivity | exact Hauth].
      * case_decide; discriminate.
    + case_decide; discriminate.
Qed.

(** C4 as stated fails: when the device answers and rejects the handshake
    (the authentication call returns false), construction does not raise
    [InvalidAuth]: it raises nothing and yields a session that is not
    available. *)
Lemma rejected_auth_raises_nothing :
  let d := mkDevice true [] in
  let rejecting := mkBroadlink (fun _ _ _ => Ok d) (fun _ => Ok false) in
  BroadlinkTadiran_init rejecting "192.168.1.20" 0x2737 = Ok (mkSession d false)
  /\ BroadlinkTadiran_init rejecting "192.168.1.20" 0x2737 <> Raise InvalidAuth
  /\ available (mkSession d false) = false.
Proof.
  repeat split; try reflexivity; vm_compute; discriminate.
Qed.

(** ** The climate entity *)

Lemma args_vars_mode (self : TadiranClimate) :
  args_vars self !! "mode"%string
  = Some (PyInt (default 1 (pydict [(HVAC_MODE_OFF, 0);
                                    (HVAC_MODE_FAN_ONLY, 0);
                                    (HVAC_MODE_COOL, 1);
                                    (HVAC_MODE_DRY, 2);
                                    (HVAC_MODE_HEAT_COOL, 3);
                                    (HVAC_MODE_HEAT, 4)]
                              !! _hvac_mode self))).
Proof. unfold args_vars, pydict. simpl. apply lookup_insert_eq. Qed.

Lemma args_vars_fan (self : TadiranClimate) :
  args_vars self !! "fan"%string
  = Some (PyInt (default 0 (pydict [(FAN_AUTO, 0); (FAN_LOW, 1); (FAN_MEDIUM, 2);
                                    (FAN_HIGH, 3)]
                              !! _fan_mode self))).
Proof.
  unfold args_vars. unfold pydict at 1. simpl.
  rewrite !lookup_insert_ne by discriminate. apply lookup_insert_eq.
Qed.

Lemma send_filter_int (args : gmap string pyval) (k : string) (z : Z) :
  k ∈ map fs_name unpack -> args !! k = Some (PyInt z) ->
  send_filter args !! k = Some z.
Proof.
  intros Hk Hz. rewrite send_filter_lookup, decide_True by exact Hk.
  unfold get_or_None. rewrite Hz. reflexivity.
Qed.

(** C3, as the code has it: an operating mode outside the lookup table is
    sent as field value 1, the code of cool, while fan-only (and off) are
    sent as 0; a fan speed other than low, medium and high, auto included,
    is sent as 0. *)
Theorem send_state_fallbacks (self : TadiranClimate) :
  (_hvac_mode self ∉ [HVAC_MODE_OFF; HVAC_MODE_FAN_ONLY; HVAC_MODE_COOL;
                      HVAC_MODE_DRY; HVAC_MODE_HEAT_COOL; HVAC_MODE_HEAT] ->
   send_filter (args_vars self) !! "mode"%string = Some 1)
  /\ (_hvac_mode self = HVAC_MODE_COOL ->
      send_filter (args_vars self) !! "mode"%string = Some 1)
  /\ (_hvac_mode self = HVAC_MODE_FAN_ONLY ->
      send_filter (args_vars self) !! "mode"%string = Some 0)
  /\ (_fan_mode self ∉ [FAN_LOW; FAN_MEDIUM; FAN_HIGH] ->
      send_filter (args_vars self) !! "fan"%string = Some 0)
  /\ (_fan_mode self = FAN_AUTO ->
      send_filter (args_vars self) !! "fan"%string = Some 0)
  /\ (_hvac_mode self = HVAC_MODE_OFF ->
      send_filter (args_vars self) !! "mode"%string = Some 0).
Proof.
  assert (Hmode : "mode"%string ∈ map fs_name unpack) by compute_done.
  assert (Hfan : "fan"%string ∈ map fs_name unpack) by compute_done.
  repeat split.
  - intros Hout. apply send_filter_int; [exact Hmode |].
    rewrite args_vars_mode. unfold pydict. simpl.
    rewrite !not_elem_of_cons in Hout. destruct Hout as (H1 & H2 & H3 & H4 & H5 & H6 & _).
    rewrite !lookup_insert_ne by congruence. rewrite lookup_empty. reflexivity.
  - intros Hcool. apply send_filter_int; [exact Hmode |].
    rewrite args_vars_mode, Hcool. reflexivity.
  - intros Hfanonly. apply send_filter_int; [exact Hmode |].
    rewrite args_vars_mode, Hfanonly. reflexivity.
  - intros Hout. apply send_filter_int; [exact Hfan |].
    rewrite args_vars_fan. unfold pydict. simpl.
    rewrite !not_elem_of_cons in Hout. destruct Hout as (H1 & H2 & H3 & _).
    rewrite !lookup_insert_ne by congruence.
    destruct (decide (FAN_AUTO = _fan_mode self)) as [Heq | Hne].
    + rewrite <- Heq. reflexivity.
    + rewrite lookup_insert_ne by exact Hne. rewrite lookup_empty. reflexivity.
  - intros Hauto. apply send_filter_int; [exact Hfan |].
    rewrite args_vars_fan, Hauto. reflexivity.
  - intros Hoff. apply send_filter_int; [exact Hmode |].
    rewrite args_vars_mode, Hoff. reflexivity.
Qed.

(** C3 as stated fails: the mode "auto" is not in the lookup table and is
    sent as field value 1, whereas fan-only is sent as 0. *)
Lemma unmapped_mode_sent_as_cool :
  let session := mkSession (mkDevice true []) true in
  let auto := mkClimate "tadiran" "192.168.1.20" false 24 HVAC_MODE_AUTO HVAC_MODE_COOL
                        FAN_AUTO SWING_OFF None None session in
  let fan_only := mkClimate "tadiran" "192.168.1.20" false 24 HVAC_MODE_FAN_ONLY
                            HVAC_MODE_COOL FAN_AUTO SWING_OFF None None session in
  args_vars auto !! "mode"%string = Some (PyInt 1)
  /\ send_filter (args_vars auto) !! "mode"%string = Some 1
  /\ send_filter (args_vars fan_only) !! "mode"%string = Some 0.
Proof. repeat split; vm_compute; reflexivity. Qed.

Lemma after_send_state_modes (self : TadiranClimate) :
  _hvac_mode (after send_state self) = _hvac_mode self
  /\ _last_hvac_mode (after send_state self) = _last_hvac_mode self.
Proof.
  unfold after, send_state.
  destruct (send (remote self) (args_vars self)); split; reflexivity.
Qed.

Lemma after_set_hvac_mode (m : string) (self : TadiranClimate) :
  _hvac_mode (after (set_hvac_mode m) self) = m
  /\ _last_hvac_mode (after (set_hvac_mode m) self)
     = if decide (m = HVAC_MODE_OFF) then m else _last_hvac_mode self.
Proof.
  unfold after, set_hvac_mode, send_state.
  destruct (decide (m = HVAC_MODE_OFF)) as [Hoff | Hon];
    match goal with
    | |- context [send ?r ?a] => destruct (send r a)
    end; split; reflexivity.
Qed.

Lemma after_async_turn_on (self : TadiranClimate) :
  _hvac_mode (after async_turn_on self) = _last_hvac_mode self.
Proof.
  unfold after, async_turn_on, set_hvac_mode, send_state.
  destruct (decide (_last_hvac_mode self = HVAC_MODE_OFF)) as [Hoff | Hon];
    match goal with
    | |- context [send ?r ?a] => destruct (send r a)
    end; reflexivity.
Qed.

(** C2, as the code behaves: after any mode has been selected and the entity
    has been switched off, the remembered mode is off, and turning the
    entity on leaves it off. *)
Theorem turn_on_after_off_stays_off (self : TadiranClimate) (m : string) :
  let s1 := after (set_hvac_mode m) self in
  let s2 := after (set_hvac_mode HVAC_MODE_OFF) s1 in
  let s3 := after async_turn_on s2 in
  _last_hvac_mode s2 = HVAC_MODE_OFF /\ hvac_mode s3 = HVAC_MODE_OFF.
Proof.
  intros s1 s2 s3.
  pose proof (proj2 (after_set_hvac_mode HVAC_MODE_OFF s1)) as Hlast.
  rewrite decide_True in Hlast by reflexivity.
  split; [exact Hlast |].
  subst s3. unfold hvac_mode. rewrite after_async_turn_on. exact Hlast.
Qed.

(** * Further properties *)

(** Membership of a given entry in the table. *)
Ltac in_unpack :=
  unfold unpack; repeat first [apply list_elem_of_here | apply list_elem_of_further].

(** ** Frames and the values they carry *)

(** Equal frames carry, in every field whose values are not negative, the
    same low bits. *)
Lemma pack_eq_low_bits (vals1 vals2 : gmap string Z) (d : FieldSpec) :
  pack vals1 = pack vals2 -> d ∈ unpack ->
  0 <= resolve vals1 d -> 0 <= resolve vals2 d ->
  resolve vals1 d mod 2 ^ Z.of_nat (fs_bits d)
  = resolve vals2 d mod 2 ^ Z.of_nat (fs_bits d).
Proof.
  intros Heq Hd Hv1 Hv2.
  destruct (pack_bits_spec vals1) as (w1 & Hrun1 & _).
  destruct (pack_bits_spec vals2) as (w2 & Hrun2 & _).
  destruct (decode_frame_pack vals1 w1 Hrun1) as (data1 & Hpack1 & Hdec1).
  destruct (decode_frame_pack vals2 w2 Hrun2) as (data2 & Hpack2 & Hdec2).
  rewrite Heq, Hpack2 in Hpack1. injection Hpack1 as <-.
  rewrite Hdec1 in Hdec2. injection Hdec2 as Hwords.
  rewrite <- (read_field_pack vals1 w1 d Hrun1 Hd Hv1).
  rewrite <- (read_field_pack vals2 w2 d Hrun2 Hd Hv2).
  rewrite Hwords. reflexivity.
Qed.

Lemma low_bits_pack_eq (vals1 vals2 : gmap string Z) :
  (forall d, d ∈ unpack -> 0 <= resolve vals1 d /\ 0 <= resolve vals2 d) ->
  (forall d, d ∈ unpack ->
             resolve vals1 d mod 2 ^ Z.of_nat (fs_bits d)
             = resolve vals2 d mod 2 ^ Z.of_nat (fs_bits d)) ->
  pack vals1 = pack vals2.
Proof.
  intros Hpos Hlow. apply pack_ext. intros d i Hd Hi.
  destruct (Hpos d Hd) as [Hv1 Hv2].
  rewrite !field_text_lookup by assumption.
  rewrite <- (Z.mod_pow2_bits_low (resolve vals1 d) (Z.of_nat (fs_bits d))) by lia.
  rewrite <- (Z.mod_pow2_bits_low (resolve vals2 d) (Z.of_nat (fs_bits d))) by lia.
  rewrite (Hlow d Hd). reflexivity.
Qed.

(** X1: for maps whose resolved values are not negative, two frames are
    equal exactly when every field has the same value modulo [2 ^ bits] in
    both maps. *)
Theorem pack_eq_iff (vals1 vals2 : gmap string Z) :
  (forall d, d ∈ unpack -> 0 <= resolve vals1 d /\ 0 <= resolve vals2 d) ->
  pack vals1 = pack vals2
  <-> forall d, d ∈ unpack ->
                resolve vals1 d mod 2 ^ Z.of_nat (fs_bits d)
                = resolve vals2 d mod 2 ^ Z.of_nat (fs_bits d).
Proof.
  intros Hpos. split.
  - intros Heq d Hd. destruct (Hpos d Hd) as [Hv1 Hv2].
    apply pack_eq_low_bits; assumption.
  - apply low_bits_pack_eq. exact Hpos.
Qed.

Lemma pack_eq_iff_witness :
  (forall d, d ∈ unpack ->
             0 <= resolve {[ "temp"%string := 24 ]} d
             /\ 0 <= resolve {[ "temp"%string := 40; "fan"%string := 5 ]} d)
  /\ (pack {[ "temp"%string := 24 ]} = pack {[ "temp"%string := 40; "fan"%string := 5 ]}
      <-> forall d, d ∈ unpack ->
            resolve {[ "temp"%string := 24 ]} d mod 2 ^ Z.of_nat (fs_bits d)
            = resolve {[ "temp"%string := 40; "fan"%string := 5 ]} d
              mod 2 ^ Z.of_nat (fs_bits d)).
Proof.
  assert (Hpos : forall d, d ∈ unpack ->
            0 <= resolve {[ "temp"%string := 24 ]} d
            /\ 0 <= resolve {[ "temp"%string := 40; "fan"%string := 5 ]} d).
  { intros d Hd. table_cases Hd; vm_compute; split; intro H; discriminate H. }
  split; [exact Hpos |].
  exact (pack_eq_iff {[ "temp"%string := 24 ]}
           {[ "temp"%string := 40; "fan"%string := 5 ]} Hpos).
Defined.

Lemma find_field (d : FieldSpec) :
  d ∈ unpack ->
  List.find (fun d' => bool_decide (fs_name d' = fs_name d)) unpack = Some d.
Proof. intros Hd. table_cases Hd; reflexivity. Qed.

(** The field read out of the frame of [pack]. *)
Lemma frame_field_pack (vals : gmap string Z) (d : FieldSpec) :
  d ∈ unpack -> 0 <= resolve vals d ->
  exists data,
    pack vals = Ok data
    /\ frame_field data (fs_name d) = Some (resolve vals d mod 2 ^ Z.of_nat (fs_bits d)).
Proof.
  intros Hd Hv.
  destruct (pack_bits_spec vals) as (word & Hrun & _).
  destruct (decode_frame_pack vals word Hrun) as (data & Hpack & Hdec).
  exists data. split; [exact Hpack |].
  unfold frame_field. rewrite Hdec, (find_field d Hd).
  rewrite (read_field_pack vals word d Hrun Hd Hv). reflexivity.
Qed.

(** ** Negative values *)

Lemma bin_digits_bounds (p : positive) :
  2 ^ (Z.of_nat (length (bin_digits p)) - 1) <= Zpos p
  < 2 ^ Z.of_nat (length (bin_digits p)).
Proof.
  induction p as [q IH | q IH |].
  - simpl length. rewrite Nat2Z.inj_succ.
    change (Z.pos q~1) with (2 * Z.pos q + 1).
    replace (Z.succ (Z.of_nat (length (bin_digits q))) - 1)
      with (Z.succ (Z.of_nat (length (bin_digits q)) - 1)) by lia.
    assert (1 <= Z.of_nat (length (bin_digits q)))
      by (destruct q; simpl; lia).
    rewrite !Z.pow_succ_r by lia. lia.
  - simpl length. rewrite Nat2Z.inj_succ.
    change (Z.pos q~0) with (2 * Z.pos q).
    replace (Z.succ (Z.of_nat (length (bin_digits q))) - 1)
      with (Z.succ (Z.of_nat (length (bin_digits q)) - 1)) by lia.
    assert (1 <= Z.of_nat (length (bin_digits q)))
      by (destruct q; simpl; lia).
    rewrite !Z.pow_succ_r by lia. lia.
  - simpl. lia.
Qed.

Lemma testbit_below_top (n p i : Z) :
  0 <= i < n -> Z.testbit (2 ^ n + p) i = Z.testbit p i.
Proof.
  intros Hi.
  rewrite <- (Z.mod_pow2_bits_low (2 ^ n + p) n) by lia.
  rewrite <- (Z.mod_pow2_bits_low p n i) by lia.
  f_equal. rewrite Z.add_comm.
  rewrite <- (Z.mul_1_l (2 ^ n)) at 1. apply Z_mod_plus_full.
Qed.

Lemma testbit_top (n p : Z) :
  0 <= n -> 0 <= p < 2 ^ n -> Z.testbit (2 ^ n + p) n = true.
Proof.
  intros Hn Hp. apply Z.testbit_true; [exact Hn |].
  rewrite <- (Z.mul_1_l (2 ^ n)) at 1.
  rewrite Z.div_add_l by lia. rewrite Z.div_small by lia. reflexivity.
Qed.

(** What the pulses of a negative value say, position by position. *)
Lemma reverse_format_b_negative (width : nat) (v : Z) (i : nat) :
  v < 0 -> (i < width)%nat ->
  is_one <$> reverse (format_b width v) !! i
  = Some (Z.testbit (sent_for_negative width v) (Z.of_nat i)).
Proof.
  intros Hv Hi. unfold format_b, sent_for_negative.
  destruct (Z.ltb_spec v 0) as [_ | Hge]; [| lia].
  destruct v as [| p | p]; [lia | lia |].
  change (- Z.neg p) with (Z.pos p). unfold bin_repr.
  rewrite reverse_cons, reverse_app, reverse_involutive, reverse_replicate, length_reverse.
  pose proof (bin_digits_bounds p) as [Hlow Hhigh].
  set (L := length (bin_digits p)) in *.
  assert (HL : (1 <= L)%nat) by (subst L; destruct p; simpl; lia).
  destruct (Z.ltb_spec (Z.pos p) (2 ^ (Z.of_nat width - 1))) as [Hsmall | Hbig].
  - assert (HLw : (L <= width - 1)%nat).
    { apply Nat2Z.inj_le. rewrite Nat2Z.inj_sub by lia.
      destruct (Z.le_gt_cases (Z.of_nat L) (Z.of_nat width - 1)) as [Hle | Hgt];
        [exact Hle |].
      assert (2 ^ (Z.of_nat width - 1) <= 2 ^ (Z.of_nat L - 1))
        by (apply Z.pow_le_mono_r; lia).
      lia. }
    replace (2 ^ (Z.of_nat width - 1) - Z.neg p)
      with (2 ^ (Z.of_nat width - 1) + Z.pos p) by lia.
    destruct (decide (i = width - 1)%nat) as [-> | Hne].
    + rewrite lookup_app_r by (rewrite length_app, length_replicate; lia).
      rewrite length_app, length_replicate. fold L.
      replace (width - 1 - (L + (width - 1 - L)))%nat with 0%nat by lia.
      simpl. rewrite Nat2Z.inj_sub by lia.
      rewrite testbit_top by lia. reflexivity.
    + rewrite lookup_app_l by (rewrite length_app, length_replicate; lia).
      rewrite bin_digits_padded_lookup by (fold L; lia).
      simpl. rewrite is_one_bitchar, testbit_below_top by lia. reflexivity.
  - assert (HLw : (width <= L)%nat).
    { apply Nat2Z.inj_le.
      destruct (Z.le_gt_cases (Z.of_nat width) (Z.of_nat L)) as [Hle | Hgt];
        [exact Hle |].
      assert (2 ^ Z.of_nat L <= 2 ^ (Z.of_nat width - 1))
        by (apply Z.pow_le_mono_r; lia).
      lia. }
    rewrite lookup_app_l by (rewrite length_app, length_replicate; lia).
    rewrite bin_digits_padded_lookup by (fold L; lia).
    simpl. rewrite is_one_bitchar, Z.mod_pow2_bits_low by lia. reflexivity.
Qed.

Lemma sent_for_negative_nonneg (width : nat) (v : Z) :
  v < 0 -> 0 <= sent_for_negative width v.
Proof.
  intros Hv. unfold sent_for_negative.
  destruct (Z.ltb_spec (- v) (2 ^ (Z.of_nat width - 1))).
  - lia.
  - apply Z.mod_pos_bound. lia.
Qed.

Lemma pulses_of_is_one (w1 w2 : list ascii) :
  map is_one w1 = map is_one w2 -> flat_map pulse_pair w1 = flat_map pulse_pair w2.
Proof.
  revert w2. induction w1 as [| x w1 IH]; intros [| y w2] Heq;
    try discriminate; [reflexivity |].
  simpl in Heq. injection Heq as Hxy Hrest.
  simpl. rewrite (IH w2 Hrest). unfold is_one in Hxy.
  destruct (decide (x = "0"%char)) as [Hx | Hx], (decide (y = "0"%char)) as [Hy | Hy];
    try reflexivity.
  - rewrite bool_decide_eq_true_2, bool_decide_eq_false_2 in Hxy by assumption.
    discriminate.
  - rewrite bool_decide_eq_false_2, bool_decide_eq_true_2 in Hxy by assumption.
    discriminate.
Qed.

(** Two maps whose field texts differ only in characters that are sent
    alike give the same frame. *)
Lemma pack_pulse_ext (vals1 vals2 : gmap string Z) :
  (forall d i, d ∈ unpack -> (i < fs_bits d)%nat ->
               is_one <$> field_text vals1 d !! i = is_one <$> field_text vals2 d !! i) ->
  pack vals1 = pack vals2.
Proof.
  intros Hsame.
  destruct (pack_bits_spec vals1) as (w1 & Hrun1 & Hlen1 & Hfree1 & Hown1).
  destruct (pack_bits_spec vals2) as (w2 & Hrun2 & Hlen2 & Hfree2 & Hown2).
  unfold pack. rewrite Hrun1, Hrun2. simpl. rewrite !encode_spec.
  do 3 f_equal. apply pulses_of_is_one.
  apply list_eq. intros p.
  change (map is_one ?l) with (is_one <$> l). rewrite !list_lookup_fmap.
  destruct (decide (p < 35)%nat) as [Hp | Hp].
  - destruct (decide (Exists (fun d => covers d p) unpack)) as [Hex | Hno].
    + apply Exists_exists in Hex as (d & Hd & Hcov).
      rewrite (Hown1 d p Hd Hcov), (Hown2 d p Hd Hcov).
      apply Hsame; [exact Hd |]. unfold covers in Hcov. lia.
    + rewrite Hfree1, Hfree2; try reflexivity; try exact Hp;
        intros d Hd Hcov; apply Hno, Exists_exists; exists d; split; assumption.
  - rewrite !lookup_ge_None_2 by lia. reflexivity.
Qed.

(** X2: a negative value is not rejected either: [pack] returns a frame.
    The sign is sent as a 1: when the digits of the magnitude leave the top
    position of the field free, the frame is the one of the magnitude plus
    [2 ^ (bits - 1)]; otherwise the frame is the one of the magnitude modulo
    [2 ^ bits]. *)
Theorem pack_negative_value (vals : gmap string Z) (d : FieldSpec) :
  d ∈ unpack ->
  resolve vals d < 0 ->
  exists data,
    pack vals = Ok data
    /\ pack (<[fs_name d := sent_for_negative (fs_bits d) (resolve vals d)]> vals)
       = Ok data.
Proof.
  intros Hd Hv.
  destruct (pack_spec vals) as (word & _ & _ & Hpack).
  eexists. split; [exact Hpack |].
  rewrite <- Hpack. symmetry.
  apply pack_pulse_ext. intros d' i Hd' Hi.
  destruct (decide (fs_name d' = fs_name d)) as [Hname | Hname].
  - assert (d' = d) as -> by (apply unpack_name_inj; assumption).
    set (v := resolve vals d) in *.
    assert (Hres : resolve (<[fs_name d := sent_for_negative (fs_bits d) v]> vals) d
                   = sent_for_negative (fs_bits d) v)
      by (unfold resolve; rewrite lookup_insert_eq; reflexivity).
    unfold field_text at 1. fold v.
    rewrite reverse_format_b_negative by assumption.
    rewrite field_text_lookup;
      [| rewrite Hres; apply sent_for_negative_nonneg; exact Hv | exact Hi].
    rewrite Hres. simpl. rewrite is_one_bitchar. reflexivity.
  - unfold field_text, resolve. rewrite lookup_insert_ne by congruence. reflexivity.
Qed.

Lemma pack_negative_value_witness :
  mkField "mode" 0 3 1 ∈ unpack
  /\ resolve {[ "mode"%string := -1 ]} (mkField "mode" 0 3 1) < 0
  /\ exists data,
       pack {[ "mode"%string := -1 ]} = Ok data
       /\ pack (<["mode"%string := 5]> {[ "mode"%string := -1 ]}) = Ok data.
Proof.
  assert (Hin : mkField "mode" 0 3 1 ∈ unpack) by (unfold unpack; set_solver).
  assert (Hv : resolve {[ "mode"%string := -1 ]} (mkField "mode" 0 3 1) < 0)
    by reflexivity.
  split; [exact Hin |]. split; [exact Hv |].
  exact (pack_negative_value {[ "mode"%string := -1 ]} (mkField "mode" 0 3 1) Hin Hv).
Defined.

(** ** The frame of the entity's state *)

Lemma args_vars_lookup (self : TadiranClimate) (k : string) :
  args_vars self !! k
  = if decide ("mode"%string = k) then Some (PyInt (mode_code (_hvac_mode self)))
    else if decide ("on"%string = k)
         then Some (PyInt (if decide (_hvac_mode self ≠ HVAC_MODE_OFF) then 1 else 0))
    else if decide ("swing"%string = k)
         then Some (PyInt (if decide (_swing_mode self ≠ SWING_OFF) then 1 else 0))
    else if decide ("fan"%string = k) then Some (PyInt (fan_code (_fan_mode self)))
    else if decide ("temp"%string = k) then Some (PyInt (_target_temp self))
    else None.
Proof.
  unfold args_vars. unfold pydict at 1. simpl fold_left.
  rewrite !lookup_insert, lookup_empty. reflexivity.
Qed.

Lemma mode_code_range (m : string) : 0 <= mode_code m < 8.
Proof.
  unfold mode_code, pydict. simpl fold_left.
  rewrite !lookup_insert, lookup_empty.
  repeat case_decide; simpl; lia.
Qed.

Lemma fan_code_range (f : string) : 0 <= fan_code f < 4.
Proof.
  unfold fan_code, pydict. simpl fold_left.
  rewrite !lookup_insert, lookup_empty.
  repeat case_decide; simpl; lia.
Qed.

(** The value that each field takes in the dictionary built from the
    entity's attributes. *)
Lemma state_resolve (self : TadiranClimate) (d : FieldSpec) :
  d ∈ unpack ->
  resolve (send_filter (args_vars self)) d
  = if decide (fs_name d = "mode"%string) then mode_code (_hvac_mode self)
    else if decide (fs_name d = "on"%string)
         then (if decide (_hvac_mode self ≠ HVAC_MODE_OFF) then 1 else 0)
    else if decide (fs_name d = "swing"%string)
         then (if decide (_swing_mode self ≠ SWING_OFF) then 1 else 0)
    else if decide (fs_name d = "fan"%string) then fan_code (_fan_mode self)
    else if decide (fs_name d = "temp"%string) then _target_temp self
    else fs_default d.
Proof.
  intros Hd. unfold resolve.
  assert (Hin : fs_name d ∈ map fs_name unpack) by (apply list_elem_of_fmap_2; exact Hd).
  rewrite send_filter_lookup, decide_True by exact Hin.
  unfold get_or_None. rewrite args_vars_lookup.
  table_cases Hd; reflexivity.
Qed.

Lemma frame_field_of_pack (vals : gmap string Z) (data : list Byte.byte) (d : FieldSpec) :
  pack vals = Ok data -> d ∈ unpack -> 0 <= resolve vals d ->
  frame_field data (fs_name d) = Some (resolve vals d mod 2 ^ Z.of_nat (fs_bits d)).
Proof.
  intros Hpack Hd Hv.
  destruct (frame_field_pack vals d Hd Hv) as (data' & Hpack' & Hfield).
  rewrite Hpack in Hpack'. injection Hpack' as <-. exact Hfield.
Qed.

Lemma state_frame_unfold (self : TadiranClimate) :
  state_frame self = pack (send_filter (args_vars self)).
Proof. unfold state_frame. reflexivity. Qed.

Lemma state_frame_total (self : TadiranClimate) : exists data, state_frame self = Ok data.
Proof.
  rewrite state_frame_unfold.
  destruct (pack_spec (send_filter (args_vars self))) as (word & _ & _ & Hpack).
  eexists. exact Hpack.
Qed.

(** A field of the state's frame, for a field whose value is in range. *)
Lemma state_frame_field (self : TadiranClimate) (data : list Byte.byte) (d : FieldSpec)
    (v : Z) :
  state_frame self = Ok data -> d ∈ unpack ->
  resolve (send_filter (args_vars self)) d = v ->
  0 <= v < 2 ^ Z.of_nat (fs_bits d) ->
  frame_field data (fs_name d) = Some v.
Proof.
  intros Hframe Hd Hres Hv. rewrite state_frame_unfold in Hframe.
  rewrite (frame_field_of_pack (send_filter (args_vars self)) data d Hframe Hd)
    by (rewrite Hres; lia).
  rewrite Hres, Z.mod_small by exact Hv. reflexivity.
Qed.

(** The value of a named field in the dictionary built from the state. *)
Ltac name_decides :=
  repeat match goal with
         | |- context [@decide (?x = ?y) ?i] =>
             first [rewrite (@decide_True _ (x = y) i) by reflexivity
                   | rewrite (@decide_False _ (x = y) i) by discriminate]
         end.

Ltac state_field :=
  rewrite state_resolve by in_unpack; cbn [fs_name fs_default]; name_decides.

(** The four controls as they are read from the state's frame. *)
Lemma state_frame_reads (self : TadiranClimate) (data : list Byte.byte) :
  state_frame self = Ok data ->
  frame_field data "on" = Some (if decide (_hvac_mode self = HVAC_MODE_OFF) then 0 else 1)
  /\ frame_field data "mode" = Some (mode_code (_hvac_mode self))
  /\ frame_field data "fan" = Some (fan_code (_fan_mode self))
  /\ frame_field data "swing"
     = Some (if decide (_swing_mode self = SWING_OFF) then 0 else 1).
Proof.
  intros Hframe.
  pose proof (mode_code_range (_hvac_mode self)) as Hmode.
  pose proof (fan_code_range (_fan_mode self)) as Hfan.
  split; [| split; [| split]].
  - apply (state_frame_field self data (mkField "on" 3 1 1));
      [exact Hframe | in_unpack | |].
    + state_field. repeat case_decide; congruence.
    + cbn [fs_bits]. change (2 ^ Z.of_nat 1) with 2. case_decide; lia.
  - apply (state_frame_field self data (mkField "mode" 0 3 1));
      [exact Hframe | in_unpack | |].
    + state_field. reflexivity.
    + cbn [fs_bits]. change (2 ^ Z.of_nat 3) with 8. exact Hmode.
  - apply (state_frame_field self data (mkField "fan" 4 2 1));
      [exact Hframe | in_unpack | |].
    + state_field. reflexivity.
    + cbn [fs_bits]. change (2 ^ Z.of_nat 2) with 4. exact Hfan.
  - apply (state_frame_field self data (mkField "swing" 6 2 0));
      [exact Hframe | in_unpack | |].
    + state_field. repeat case_decide; congruence.
    + cbn [fs_bits]. change (2 ^ Z.of_nat 2) with 4. case_decide; lia.
Qed.

(** X3: the frame of any state of the entity carries the power bit (0 exactly
    when the mode is off), the mode code, the fan code and the swing bit
    (0 exactly when swing is off) unchanged: none of them is ever cut by the
    width of its field. *)
Theorem state_frame_controls (self : TadiranClimate) :
  exists data,
    state_frame self = Ok data
    /\ frame_field data "on" = Some (if decide (_hvac_mode self = HVAC_MODE_OFF) then 0 else 1)
    /\ frame_field data "mode" = Some (mode_code (_hvac_mode self))
    /\ frame_field data "fan" = Some (fan_code (_fan_mode self))
    /\ frame_field data "swing"
       = Some (if decide (_swing_mode self = SWING_OFF) then 0 else 1).
Proof.
  destruct (state_frame_total self) as (data & Hframe).
  exists data. split; [exact Hframe |].
  exact (state_frame_reads self data Hframe).
Qed.

(** X4: whatever the state of the entity, its frame carries the table
    defaults in the four fields that the entity never sets: 0x4A in
    [unknown2], 0 in [blow], 1 in [light] and 0 in [turbo]. *)
Theorem state_frame_fixed_fields (self : TadiranClimate) :
  exists data,
    state_frame self = Ok data
    /\ frame_field data "unknown2" = Some 0x4A
    /\ frame_field data "blow" = Some 0
    /\ frame_field data "light" = Some 1
    /\ frame_field data "turbo" = Some 0.
Proof.
  destruct (state_frame_total self) as (data & Hframe).
  exists data. split; [exact Hframe |].
  split; [| split; [| split]].
  - apply (state_frame_field self data (mkField "unknown2" 27 8 0x4A));
      [exact Hframe | in_unpack | | cbn [fs_bits]; vm_compute; split; congruence].
    state_field. reflexivity.
  - apply (state_frame_field self data (mkField "blow" 23 1 0));
      [exact Hframe | in_unpack | | cbn [fs_bits]; vm_compute; split; congruence].
    state_field. reflexivity.
  - apply (state_frame_field self data (mkField "light" 21 1 1));
      [exact Hframe | in_unpack | | cbn [fs_bits]; vm_compute; split; congruence].
    state_field. reflexivity.
  - apply (state_frame_field self data (mkField "turbo" 20 1 0));
      [exact Hframe | in_unpack | | cbn [fs_bits]; vm_compute; split; congruence].
    state_field. reflexivity.
Qed.

(** ** Calls and the transport *)

Lemma args_vars_set_remote (r : BroadlinkTadiran) (self : TadiranClimate) :
  args_vars (set_remote r self) = args_vars self.
Proof. destruct self. reflexivity. Qed.

Lemma state_frame_set_remote (r : BroadlinkTadiran) (self : TadiranClimate) :
  state_frame (set_remote r self) = state_frame self.
Proof. rewrite !state_frame_unfold, args_vars_set_remote. reflexivity. Qed.

(** [send_state] with the link up: one frame more, and nothing else. *)
Lemma send_state_up (self : TadiranClimate) :
  link_up self = true ->
  exists data,
    state_frame self = Ok data
    /\ send_state self
       = (Ok tt,
          set_remote (mkSession (mkDevice true (frames_sent self ++ [data]))
                                (_available (remote self))) self).
Proof.
  intros Hup. destruct (state_frame_total self) as (data & Hframe).
  exists data. split; [exact Hframe |].
  rewrite state_frame_unfold in Hframe.
  unfold send_state, send. rewrite Hframe. cbn [bind].
  unfold link_up in Hup. unfold send_data. rewrite Hup. reflexivity.
Qed.

(** [send_state] with the link down: the exception, and the entity as it
    was. *)
Lemma send_state_down (self : TadiranClimate) :
  link_up self = false -> send_state self = (Raise DeviceOfflineError, self).
Proof.
  intros Hdown. destruct (state_frame_total self) as (data & Hframe).
  rewrite state_frame_unfold in Hframe.
  unfold send_state, send. rewrite Hframe. cbn [bind].
  unfold link_up in Hdown. unfold send_data. rewrite Hdown. reflexivity.
Qed.

(** Every call assigns its attribute and then runs [send_state]. *)
Lemma run_call_assigned (c : call) (self : TadiranClimate) :
  run_call c self = send_state (assigned c self).
Proof. destruct c; reflexivity. Qed.

Lemma assigned_remote (c : call) (self : TadiranClimate) :
  remote (assigned c self) = remote self.
Proof.
  destruct c; simpl; try reflexivity; case_decide; reflexivity.
Qed.

Lemma after_run_call_up (c : call) (self : TadiranClimate) :
  link_up self = true ->
  exists data,
    state_frame (assigned c self) = Ok data
    /\ (run_call c self).1 = Ok tt
    /\ after (run_call c) self
       = set_remote (mkSession (mkDevice true (frames_sent self ++ [data]))
                               (_available (remote self))) (assigned c self).
Proof.
  intros Hup.
  assert (Hup' : link_up (assigned c self) = true)
    by (unfold link_up; rewrite assigned_remote; exact Hup).
  destruct (send_state_up (assigned c self) Hup') as (data & Hframe & Hsend).
  exists data. split; [exact Hframe |].
  unfold after. rewrite run_call_assigned, Hsend.
  unfold frames_sent. rewrite assigned_remote. split; reflexivity.
Qed.

Lemma after_run_call_down (c : call) (self : TadiranClimate) :
  link_up self = false ->
  (run_call c self).1 = Raise DeviceOfflineError
  /\ after (run_call c) self = assigned c self.
Proof.
  intros Hdown.
  assert (Hdown' : link_up (assigned c self) = false)
    by (unfold link_up; rewrite assigned_remote; exact Hdown).
  unfold after. rewrite run_call_assigned, (send_state_down _ Hdown').
  split; reflexivity.
Qed.

Lemma set_remote_frames (r : BroadlinkTadiran) (self : TadiranClimate) :
  frames_sent (set_remote r self) = dev_sent (dev r)
  /\ link_up (set_remote r self) = dev_online (dev r)
  /\ TadiranClimate_available (set_remote r self) = _available r.
Proof. destruct self. repeat split; reflexivity. Qed.

(** X6: a call of the controller that returns normally has handed to the
    transport exactly one frame more, the 92-byte frame of the state it
    leaves, and has left the availability flag as it was. *)
Theorem call_outcome (c : call) (self : TadiranClimate) :
  (run_call c self).1 = Ok tt ->
  TadiranClimate_available (after (run_call c) self) = TadiranClimate_available self
  /\ exists data,
       state_frame (after (run_call c) self) = Ok data
       /\ length data = 92%nat
       /\ frames_sent (after (run_call c) self) = frames_sent self ++ [data].
Proof.
  intros Hok. destruct (link_up self) eqn:Hlink.
  - destruct (after_run_call_up c self Hlink) as (data & Hframe & _ & Hafter).
    rewrite Hafter.
    destruct (set_remote_frames
                (mkSession (mkDevice true (frames_sent self ++ [data]))
                           (_available (remote self))) (assigned c self))
      as (Hf & _ & Ha).
    rewrite Hf, Ha. cbn [dev dev_sent _available].
    split; [reflexivity |].
    exists data. rewrite state_frame_set_remote.
    split; [exact Hframe |]. split; [| reflexivity].
    rewrite state_frame_unfold in Hframe. exact (pack_length _ _ Hframe).
  - destruct (after_run_call_down c self Hlink) as (Hres & _).
    rewrite Hres in Hok. discriminate Hok.
Qed.

Lemma call_outcome_witness :
  let self := mkClimate "tadiran" "192.168.1.20" false 24 HVAC_MODE_OFF HVAC_MODE_COOL
                        FAN_AUTO SWING_OFF None None
                        (mkSession (mkDevice true []) true) in
  (run_call (SetFanMode FAN_HIGH) self).1 = Ok tt
  /\ TadiranClimate_available (after (run_call (SetFanMode FAN_HIGH)) self)
     = TadiranClimate_available self
  /\ exists data,
       state_frame (after (run_call (SetFanMode FAN_HIGH)) self) = Ok data
       /\ length data = 92%nat
       /\ frames_sent (after (run_call (SetFanMode FAN_HIGH)) self)
          = frames_sent self ++ [data].
Proof.
  intros self.
  assert (Hok : (run_call (SetFanMode FAN_HIGH) self).1 = Ok tt)
    by (vm_compute; reflexivity).
  split; [exact Hok |].
  exact (call_outcome (SetFanMode FAN_HIGH) self Hok).
Defined.

Lemma assigned_set_remote (c : call) (r : BroadlinkTadiran) (self : TadiranClimate) :
  assigned c (set_remote r self) = set_remote r (assigned c self).
Proof.
  destruct self, c; simpl; try reflexivity; case_decide; reflexivity.
Qed.

(** The attributes after a call are the assigned ones, whatever became of
    the send. *)
Lemma after_run_call_attributes (c : call) (self : TadiranClimate) :
  exists r, after (run_call c) self = set_remote r (assigned c self).
Proof.
  destruct (link_up self) eqn:Hlink.
  - destruct (after_run_call_up c self Hlink) as (data & _ & _ & Hafter).
    eexists. exact Hafter.
  - destruct (after_run_call_down c self Hlink) as (_ & Hafter).
    exists (remote (assigned c self)). rewrite Hafter.
    destruct (assigned c self). reflexivity.
Qed.

Lemma set_remote_attributes (r : BroadlinkTadiran) (self : TadiranClimate) :
  _target_temp (set_remote r self) = _target_temp self
  /\ _hvac_mode (set_remote r self) = _hvac_mode self
  /\ _last_hvac_mode (set_remote r self) = _last_hvac_mode self
  /\ _fan_mode (set_remote r self) = _fan_mode self
  /\ _swing_mode (set_remote r self) = _swing_mode self.
Proof. destruct self. repeat split; reflexivity. Qed.

(** X7: what the entity believes never depends on the transport: the same
    call on two entities that differ only in their session (link up or
    down, available or not, any history of frames) leaves the same target
    temperature, mode, remembered mode, fan speed and swing; in particular
    a call that raised has changed the attributes all the same. *)
Theorem attributes_ignore_transport (c : call) (r : BroadlinkTadiran)
    (self : TadiranClimate) :
  _target_temp (after (run_call c) (set_remote r self))
  = _target_temp (after (run_call c) self)
  /\ _hvac_mode (after (run_call c) (set_remote r self))
     = _hvac_mode (after (run_call c) self)
  /\ _last_hvac_mode (after (run_call c) (set_remote r self))
     = _last_hvac_mode (after (run_call c) self)
  /\ _fan_mode (after (run_call c) (set_remote r self))
     = _fan_mode (after (run_call c) self)
  /\ _swing_mode (after (run_call c) (set_remote r self))
     = _swing_mode (after (run_call c) self).
Proof.
  destruct (after_run_call_attributes c self) as (r1 & ->).
  destruct (after_run_call_attributes c (set_remote r self)) as (r2 & ->).
  rewrite assigned_set_remote.
  destruct (set_remote_attributes r1 (assigned c self)) as (-> & -> & -> & -> & ->).
  destruct (set_remote_attributes r2 (set_remote r (assigned c self)))
    as (-> & -> & -> & -> & ->).
  destruct (set_remote_attributes r (assigned c self)) as (-> & -> & -> & -> & ->).
  repeat split; reflexivity.
Qed.

(** ** Which changes of the state show in the frame *)

Lemma state_frame_after (c : call) (self : TadiranClimate) :
  state_frame (after (run_call c) self) = state_frame (assigned c self).
Proof.
  destruct (after_run_call_attributes c self) as (r & ->).
  apply state_frame_set_remote.
Qed.

(** Equal frames: equal controls. *)
Lemma state_frame_eq_controls (s1 s2 : TadiranClimate) :
  state_frame s1 = state_frame s2 ->
  mode_code (_hvac_mode s1) = mode_code (_hvac_mode s2)
  /\ (_hvac_mode s1 = HVAC_MODE_OFF <-> _hvac_mode s2 = HVAC_MODE_OFF)
  /\ fan_code (_fan_mode s1) = fan_code (_fan_mode s2)
  /\ (_swing_mode s1 = SWING_OFF <-> _swing_mode s2 = SWING_OFF).
Proof.
  intros Heq.
  destruct (state_frame_total s1) as (data & Hframe1).
  assert (Hframe2 : state_frame s2 = Ok data) by (rewrite <- Heq; exact Hframe1).
  destruct (state_frame_reads s1 data Hframe1) as (Hon1 & Hmode1 & Hfan1 & Hsw1).
  destruct (state_frame_reads s2 data Hframe2) as (Hon2 & Hmode2 & Hfan2 & Hsw2).
  rewrite Hon1 in Hon2. rewrite Hmode1 in Hmode2.
  rewrite Hfan1 in Hfan2. rewrite Hsw1 in Hsw2.
  injection Hmode2 as Hmode. injection Hfan2 as Hfan.
  injection Hon2 as Hon. injection Hsw2 as Hsw.
  split; [exact Hmode |]. split; [| split; [exact Hfan |]].
  - clear Hsw. repeat case_decide; split; intros; (assumption || congruence).
  - clear Hon. repeat case_decide; split; intros; (assumption || congruence).
Qed.

Lemma same_resolve_pack_eq (vals1 vals2 : gmap string Z) :
  (forall d, d ∈ unpack -> resolve vals1 d = resolve vals2 d) ->
  pack vals1 = pack vals2.
Proof.
  intros Hsame. apply pack_ext. intros d i Hd _.
  unfold field_text. rewrite (Hsame d Hd). reflexivity.
Qed.

Lemma controls_state_frame_eq (s1 s2 : TadiranClimate) :
  _target_temp s1 = _target_temp s2 ->
  mode_code (_hvac_mode s1) = mode_code (_hvac_mode s2) ->
  (_hvac_mode s1 = HVAC_MODE_OFF <-> _hvac_mode s2 = HVAC_MODE_OFF) ->
  fan_code (_fan_mode s1) = fan_code (_fan_mode s2) ->
  (_swing_mode s1 = SWING_OFF <-> _swing_mode s2 = SWING_OFF) ->
  state_frame s1 = state_frame s2.
Proof.
  intros Htemp Hmode Hon Hfan Hswing.
  rewrite !state_frame_unfold. apply same_resolve_pack_eq.
  intros d Hd. rewrite !state_resolve by exact Hd.
  table_cases Hd; cbn [fs_name fs_default]; name_decides;
    first [ reflexivity
          | exact Htemp
          | exact Hfan
          | exact Hmode
          | repeat case_decide; tauto || reflexivity ].
Qed.

(** X8: two states with the same target temperature have the same frame
    exactly when their mode codes and their fan codes agree and both or
    neither are off, in mode and in swing. *)
Theorem state_frame_eq_iff (s1 s2 : TadiranClimate) :
  _target_temp s1 = _target_temp s2 ->
  state_frame s1 = state_frame s2
  <-> (mode_code (_hvac_mode s1) = mode_code (_hvac_mode s2)
       /\ (_hvac_mode s1 = HVAC_MODE_OFF <-> _hvac_mode s2 = HVAC_MODE_OFF)
       /\ fan_code (_fan_mode s1) = fan_code (_fan_mode s2)
       /\ (_swing_mode s1 = SWING_OFF <-> _swing_mode s2 = SWING_OFF)).
Proof.
  intros Htemp. split.
  - apply state_frame_eq_controls.
  - intros (Hmode & Hon & Hfan & Hswing).
    apply controls_state_frame_eq; assumption.
Qed.

Lemma state_frame_eq_iff_witness :
  let session := mkSession (mkDevice true []) true in
  let s1 := mkClimate "tadiran" "192.168.1.20" false 24 HVAC_MODE_COOL HVAC_MODE_COOL
                      FAN_AUTO SWING_OFF None None session in
  let s2 := mkClimate "tadiran" "192.168.1.20" false 24 "eco" HVAC_MODE_COOL
                      "turbo" SWING_OFF None None session in
  _target_temp s1 = _target_temp s2
  /\ (state_frame s1 = state_frame s2
      <-> (mode_code (_hvac_mode s1) = mode_code (_hvac_mode s2)
           /\ (_hvac_mode s1 = HVAC_MODE_OFF <-> _hvac_mode s2 = HVAC_MODE_OFF)
           /\ fan_code (_fan_mode s1) = fan_code (_fan_mode s2)
           /\ (_swing_mode s1 = SWING_OFF <-> _swing_mode s2 = SWING_OFF))).
Proof.
  intros session s1 s2.
  assert (Htemp : _target_temp s1 = _target_temp s2) by reflexivity.
  split; [exact Htemp |].
  exact (state_frame_eq_iff s1 s2 Htemp).
Defined.

Lemma assigned_hvac_mode (m : string) (self : TadiranClimate) :
  _hvac_mode (assigned (SetHvacMode m) self) = m.
Proof. destruct self. simpl. reflexivity. Qed.

Lemma assigned_fan_mode (f : string) (self : TadiranClimate) :
  _fan_mode (assigned (SetFanMode f) self) = f.
Proof. destruct self. reflexivity. Qed.

Lemma assigned_swing_mode (w : string) (self : TadiranClimate) :
  _swing_mode (assigned (SetSwingMode w) self) = w.
Proof. destruct self. reflexivity. Qed.

Lemma state_frame_after_send_state (self : TadiranClimate) :
  state_frame (send_state self).2 = state_frame self.
Proof.
  destruct (link_up self) eqn:Hlink.
  - destruct (send_state_up self Hlink) as (data & _ & ->).
    apply state_frame_set_remote.
  - rewrite (send_state_down self Hlink). reflexivity.
Qed.

Lemma state_frame_after_set_hvac_mode (m : string) (self : TadiranClimate) :
  state_frame (after (set_hvac_mode m) self) = state_frame (assigned (SetHvacMode m) self).
Proof.
  unfold after, set_hvac_mode, assigned. apply state_frame_after_send_state.
Qed.

Lemma state_frame_after_set_fan_mode (f : string) (self : TadiranClimate) :
  state_frame (after (set_fan_mode f) self) = state_frame (assigned (SetFanMode f) self).
Proof.
  unfold after, set_fan_mode, assigned. apply state_frame_after_send_state.
Qed.

Lemma state_frame_after_set_swing_mode (w : string) (self : TadiranClimate) :
  state_frame (after (set_swing_mode w) self) = state_frame (assigned (SetSwingMode w) self).
Proof.
  unfold after, set_swing_mode, assigned. apply state_frame_after_send_state.
Qed.

(** Case analysis on a membership in one of the lists of settings. *)
Ltac setting_cases H :=
  rewrite !elem_of_cons, elem_of_nil in H; destruct_or!; subst; try contradiction.

(** X9: the settings that the entity offers are told apart on the wire: two
    different modes of [hvac_modes], two different speeds of [fan_modes] or
    two different positions of [swing_modes] never give the same frame. *)
Theorem offered_settings_distinct_frames (self : TadiranClimate) :
  (forall m1 m2, m1 ∈ hvac_modes -> m2 ∈ hvac_modes -> m1 <> m2 ->
     state_frame (after (set_hvac_mode m1) self)
     <> state_frame (after (set_hvac_mode m2) self))
  /\ (forall f1 f2, f1 ∈ fan_modes -> f2 ∈ fan_modes -> f1 <> f2 ->
        state_frame (after (set_fan_mode f1) self)
        <> state_frame (after (set_fan_mode f2) self))
  /\ (forall w1 w2, w1 ∈ swing_modes -> w2 ∈ swing_modes -> w1 <> w2 ->
        state_frame (after (set_swing_mode w1) self)
        <> state_frame (after (set_swing_mode w2) self)).
Proof.
  split; [| split].
  - intros m1 m2 H1 H2 Hne Heq.
    rewrite !state_frame_after_set_hvac_mode in Heq.
    apply state_frame_eq_controls in Heq as (Hmode & Hon & _).
    rewrite !assigned_hvac_mode in Hmode, Hon.
    unfold hvac_modes in H1, H2.
    setting_cases H1; setting_cases H2; try (vm_compute in Hmode; discriminate Hmode).
    + destruct Hon as [_ Hon]. specialize (Hon eq_refl). discriminate Hon.
    + destruct Hon as [Hon _]. specialize (Hon eq_refl). discriminate Hon.
  - intros f1 f2 H1 H2 Hne Heq.
    rewrite !state_frame_after_set_fan_mode in Heq.
    apply state_frame_eq_controls in Heq as (_ & _ & Hfan & _).
    rewrite !assigned_fan_mode in Hfan.
    unfold fan_modes in H1, H2.
    setting_cases H1; setting_cases H2; vm_compute in Hfan; discriminate Hfan.
  - intros w1 w2 H1 H2 Hne Heq.
    rewrite !state_frame_after_set_swing_mode in Heq.
    apply state_frame_eq_controls in Heq as (_ & _ & _ & Hswing).
    rewrite !assigned_swing_mode in Hswing.
    unfold swing_modes in H1, H2.
    setting_cases H1; setting_cases H2.
    + destruct Hswing as [Hswing _]. specialize (Hswing eq_refl). discriminate Hswing.
    + destruct Hswing as [_ Hswing]. specialize (Hswing eq_refl). discriminate Hswing.
Qed.

(** ** Sequences of calls *)

Lemma run_calls_cons (c : call) (cs : list call) (self : TadiranClimate) :
  run_calls (c :: cs) self = run_calls cs (after (run_call c) self).
Proof. reflexivity. Qed.

Lemma assigned_last_hvac_mode (c : call) (self : TadiranClimate) :
  _last_hvac_mode (assigned c self)
  = if decide (c = SetHvacMode HVAC_MODE_OFF) then HVAC_MODE_OFF else _last_hvac_mode self.
Proof.
  destruct self as [n i st t m l f w te he r].
  destruct c as [temp | fan | mode | swing |]; cbn [assigned];
    try (rewrite decide_False by discriminate; reflexivity).
  - destruct (decide (mode = HVAC_MODE_OFF)) as [-> | Hne].
    + rewrite decide_True by reflexivity. reflexivity.
    + rewrite decide_False by congruence. reflexivity.
  - rewrite (decide_False (P := AsyncTurnOn = SetHvacMode HVAC_MODE_OFF)) by discriminate.
    cbn [_last_hvac_mode]. destruct (decide (l = HVAC_MODE_OFF)) as [-> | Hne]; reflexivity.
Qed.

Lemma after_run_call_last_hvac_mode (c : call) (self : TadiranClimate) :
  _last_hvac_mode (after (run_call c) self)
  = if decide (c = SetHvacMode HVAC_MODE_OFF) then HVAC_MODE_OFF else _last_hvac_mode self.
Proof.
  destruct (after_run_call_attributes c self) as (r & ->).
  destruct (set_remote_attributes r (assigned c self)) as (_ & _ & -> & _).
  apply assigned_last_hvac_mode.
Qed.

Lemma run_calls_last_hvac_mode (cs : list call) (self : TadiranClimate) :
  _last_hvac_mode (run_calls cs self)
  = if decide (SetHvacMode HVAC_MODE_OFF ∈ cs) then HVAC_MODE_OFF else _last_hvac_mode self.
Proof.
  revert self. induction cs as [| c cs IH]; intros self.
  - rewrite decide_False by (apply not_elem_of_nil). reflexivity.
  - rewrite run_calls_cons, IH, after_run_call_last_hvac_mode.
    destruct (decide (SetHvacMode HVAC_MODE_OFF ∈ cs)) as [Hin | Hout].
    + rewrite decide_True by (apply list_elem_of_further; exact Hin). reflexivity.
    + destruct (decide (c = SetHvacMode HVAC_MODE_OFF)) as [-> | Hne].
      * rewrite decide_True by (apply list_elem_of_here). reflexivity.
      * rewrite decide_False; [reflexivity |].
        intros Hin. apply elem_of_cons in Hin as [Heq | Hin]; [congruence | contradiction].
Qed.

Lemma TadiranClimate_init_attributes (lib : broadlink) (name ip : string) (rm_type : Z)
    (temp_entity humidity_entity : option string) (self : TadiranClimate) :
  TadiranClimate_init lib name ip rm_type temp_entity humidity_entity = Ok self ->
  _target_temp self = 24
  /\ _hvac_mode self = HVAC_MODE_OFF
  /\ _last_hvac_mode self = HVAC_MODE_COOL
  /\ _fan_mode self = FAN_AUTO
  /\ _swing_mode self = SWING_OFF.
Proof.
  unfold TadiranClimate_init.
  destruct (BroadlinkTadiran_init lib ip rm_type) as [r | e]; simpl; [| discriminate].
  intros [= <-]. repeat split; reflexivity.
Qed.

Lemma after_async_turn_on_hvac_mode (self : TadiranClimate) :
  hvac_mode (after async_turn_on self) = _last_hvac_mode self.
Proof. unfold hvac_mode. apply after_async_turn_on. Qed.

(** X11: from its construction on, and whatever the calls made since, the
    mode that the entity remembers for turning on is cool as long as
    [set_hvac_mode] was never called with off, and off ever after the first
    such call; [async_turn_on] selects that mode. *)
Theorem remembered_mode_history (lib : broadlink) (name ip : string) (rm_type : Z)
    (temp_entity humidity_entity : option string) (self : TadiranClimate)
    (cs : list call) :
  TadiranClimate_init lib name ip rm_type temp_entity humidity_entity = Ok self ->
  _last_hvac_mode (run_calls cs self)
  = (if decide (SetHvacMode HVAC_MODE_OFF ∈ cs) then HVAC_MODE_OFF else HVAC_MODE_COOL)
  /\ hvac_mode (after async_turn_on (run_calls cs self))
     = (if decide (SetHvacMode HVAC_MODE_OFF ∈ cs) then HVAC_MODE_OFF else HVAC_MODE_COOL).
Proof.
  intros Hinit.
  destruct (TadiranClimate_init_attributes _ _ _ _ _ _ _ Hinit) as (_ & _ & Hlast & _).
  rewrite after_async_turn_on_hvac_mode, run_calls_last_hvac_mode, Hlast.
  split; reflexivity.
Qed.

Lemma remembered_mode_history_witness :
  let lib := mkBroadlink (fun _ _ _ => Ok (mkDevice true [])) (fun _ => Ok true) in
  let self := mkClimate "tadiran" "192.168.1.20" false 24 HVAC_MODE_OFF HVAC_MODE_COOL
                        FAN_AUTO SWING_OFF None None
                        (mkSession (mkDevice true []) true) in
  let cs := [SetHvacMode HVAC_MODE_HEAT; SetHvacMode HVAC_MODE_OFF; AsyncTurnOn] in
  TadiranClimate_init lib "tadiran" "192.168.1.20" 0x2737 None None = Ok self
  /\ _last_hvac_mode (run_calls cs self)
     = (if decide (SetHvacMode HVAC_MODE_OFF ∈ cs) then HVAC_MODE_OFF else HVAC_MODE_COOL)
  /\ hvac_mode (after async_turn_on (run_calls cs self))
     = (if decide (SetHvacMode HVAC_MODE_OFF ∈ cs) then HVAC_MODE_OFF else HVAC_MODE_COOL).
Proof.
  intros lib self cs.
  assert (Hinit : TadiranClimate_init lib "tadiran" "192.168.1.20" 0x2737 None None
                  = Ok self) by reflexivity.
  split; [exact Hinit |].
  exact (remembered_mode_history lib "tadiran" "192.168.1.20" 0x2737 None None self cs
           Hinit).
Defined.

Lemma run_call_log (c : call) (self : TadiranClimate) :
  exists new,
    frames_sent (after (run_call c) self) = frames_sent self ++ new
    /\ Forall (fun frame => length frame = 92%nat) new
    /\ length new = (if link_up self then 1 else 0)%nat
    /\ TadiranClimate_available (after (run_call c) self) = TadiranClimate_available self
    /\ link_up (after (run_call c) self) = link_up self.
Proof.
  destruct (link_up self) eqn:Hlink.
  - destruct (after_run_call_up c self Hlink) as (data & Hframe & _ & Hafter).
    rewrite Hafter.
    destruct (set_remote_frames
                (mkSession (mkDevice true (frames_sent self ++ [data]))
                           (_available (remote self))) (assigned c self))
      as (Hf & Hl & Ha).
    rewrite Hf, Hl, Ha. cbn [dev dev_sent dev_online _available].
    exists [data]. split; [reflexivity |]. split.
    + rewrite state_frame_unfold in Hframe.
      apply Forall_cons_2; [exact (pack_length _ _ Hframe) | apply Forall_nil_2].
    + repeat split; reflexivity.
  - destruct (after_run_call_down c self Hlink) as (_ & Hafter).
    rewrite Hafter. exists []. rewrite app_nil_r.
    unfold TadiranClimate_available, link_up, frames_sent.
    rewrite assigned_remote. unfold link_up in Hlink.
    split; [reflexivity |]. split; [apply Forall_nil_2 |].
    split; [reflexivity |]. split; [reflexivity | exact Hlink].
Qed.

(** X12: over any sequence of calls the frames handed to the transport only
    accumulate: the earlier ones stay, in order, every frame added has 92
    bytes, and there is at most one more frame per call; the calls never
    change the availability flag, which stays what the handshake at
    construction made it. *)
Theorem calls_log (cs : list call) (self : TadiranClimate) :
  exists new,
    frames_sent (run_calls cs self) = frames_sent self ++ new
    /\ Forall (fun frame => length frame = 92%nat) new
    /\ (length new <= length cs)%nat
    /\ TadiranClimate_available (run_calls cs self) = TadiranClimate_available self.
Proof.
  revert self. induction cs as [| c cs IH]; intros self.
  - exists []. rewrite app_nil_r. split; [reflexivity |]. split; [apply Forall_nil_2 |].
    split; [simpl; lia | reflexivity].
  - rewrite run_calls_cons.
    destruct (run_call_log c self) as (new1 & Hlog1 & Hlen1 & Hcount1 & Hav1 & _).
    destruct (IH (after (run_call c) self)) as (new2 & Hlog2 & Hlen2 & Hcount2 & Hav2).
    exists (new1 ++ new2).
    rewrite Hlog2, Hlog1, Hav2, Hav1, <- app_assoc.
    split; [reflexivity |]. split; [apply Forall_app; split; assumption |].
    split; [| reflexivity].
    rewrite length_app, Hcount1. simpl length.
    destruct (link_up self); lia.
Qed.

(** ** What the entity reports *)

Lemma hvac_action_value (self : TadiranClimate) :
  hvac_action self
  = default CURRENT_HVAC_OFF
      (if decide (HVAC_MODE_HEAT = _hvac_mode self) then Some CURRENT_HVAC_HEAT
       else if decide (HVAC_MODE_FAN_ONLY = _hvac_mode self) then Some CURRENT_HVAC_FAN
       else if decide (HVAC_MODE_DRY = _hvac_mode self) then Some CURRENT_HVAC_DRY
       else if decide (HVAC_MODE_COOL = _hvac_mode self) then Some CURRENT_HVAC_COOL
       else None).
Proof.
  unfold hvac_action, pydict. simpl fold_left.
  rewrite !lookup_insert, lookup_empty. reflexivity.
Qed.

(** X13: for each mode that the entity offers, [hvac_action] reports off
    exactly when the frame of the state carries power bit 0; for any other
    mode [hvac_action] reports off although the frame carries power
    bit 1. *)
Theorem hvac_action_and_power (self : TadiranClimate) :
  exists data,
    state_frame self = Ok data
    /\ (_hvac_mode self ∈ hvac_modes ->
        (hvac_action self = CURRENT_HVAC_OFF <-> frame_field data "on" = Some 0))
    /\ (_hvac_mode self ∉ hvac_modes ->
        hvac_action self = CURRENT_HVAC_OFF /\ frame_field data "on" = Some 1).
Proof.
  destruct (state_frame_total self) as (data & Hframe).
  exists data. split; [exact Hframe |].
  destruct (state_frame_reads self data Hframe) as (Hon & _).
  rewrite Hon, hvac_action_value. clear Hon Hframe.
  remember (_hvac_mode self) as m eqn:Hm. clear Hm.
  split.
  - intros Hin. unfold hvac_modes in Hin. setting_cases Hin;
      (split; [intros H; vm_compute in H; discriminate H
              | intros H; vm_compute in H; discriminate H])
      || (split; intros _; reflexivity).
  - intros Hout. unfold hvac_modes in Hout.
    rewrite !not_elem_of_cons in Hout. destruct Hout as (H1 & H2 & H3 & H4 & H5 & _).
    rewrite !decide_False by congruence. split; reflexivity.
Qed.

(** ** The configuration flow *)

(** Construction, by the outcome of the two calls of the library. *)
Lemma BroadlinkTadiran_init_cases (lib : broadlink) (ip : string) (rmtype : Z) :
  BroadlinkTadiran_init lib ip rmtype
  = match gendevice lib rmtype (ip, 80) "000000000000"%string with
    | Ok d =>
        match auth lib d with
        | Ok a => Ok (mkSession d a)
        | Raise e => if decide (e = DeviceOfflineError) then Raise InvalidAuth else Raise e
        end
    | Raise e => if decide (e = DeviceOfflineError) then Raise CannotConnect else Raise e
    end.
Proof.
  unfold BroadlinkTadiran_init.
  destruct (gendevice lib rmtype (ip, 80) "000000000000"%string) as [d | e]; simpl.
  - destruct (auth lib d) as [a | e]; simpl; [reflexivity |].
    case_decide; reflexivity.
  - case_decide; reflexivity.
Qed.

Lemma async_step_user_cases (lib : broadlink) (data : user_input) :
  async_step_user lib (Some data)
  = match BroadlinkTadiran_init lib (ui_ip_address data) (ui_rm_type data) with
    | Ok session =>
        if available session then create_entry (ui_name data) data
        else show_form "user" {[ "base"%string := "cannot_connect"%string ]}
    | Raise e =>
        show_form "user"
          {[ "base"%string :=
               if decide (e = CannotConnect) then "cannot_connect"%string
               else if decide (e = InvalidAuth) then "invalid_auth"%string
               else "unknown"%string ]}
    end.
Proof.
  unfold async_step_user, validate_input, tadiran_validate.
  destruct (BroadlinkTadiran_init lib (ui_ip_address data) (ui_rm_type data)) as [s | e];
    simpl.
  - destruct (available s); simpl; reflexivity.
  - repeat case_decide; reflexivity.
Qed.

(** X14: the flow creates an entry exactly when the device handle could be
    made and the handshake was accepted; the entry's title is the name
    given and its data is the input. *)
Theorem flow_creates_entry_iff (lib : broadlink) (data : user_input) :
  ((exists title data', async_step_user lib (Some data) = create_entry title data')
   <-> exists d,
         gendevice lib (ui_rm_type data) (ui_ip_address data, 80) "000000000000"%string
         = Ok d
         /\ auth lib d = Ok true)
  /\ (forall title data',
        async_step_user lib (Some data) = create_entry title data' ->
        title = ui_name data /\ data' = data).
Proof.
  rewrite async_step_user_cases, BroadlinkTadiran_init_cases.
  destruct (gendevice lib (ui_rm_type data) (ui_ip_address data, 80) "000000000000"%string)
    as [d | e].
  - destruct (auth lib d) as [[|] | e] eqn:Hauth.
    + cbn [available _available]. split.
      * split; [intros _; exists d; split; [reflexivity | exact Hauth] |].
        intros _. eexists. eexists. reflexivity.
      * intros title data' [= <- <-]. split; reflexivity.
    + cbn [available _available]. split.
      * split; [intros (title & data' & H); discriminate H |].
        intros (d' & [= <-] & H). rewrite Hauth in H. discriminate H.
      * intros title data' H. discriminate H.
    + split.
      * split; [intros (title & data' & H); case_decide; discriminate H |].
        intros (d' & [= <-] & H). rewrite Hauth in H. discriminate H.
      * intros title data' H. case_decide; discriminate H.
  - split.
    + split; [intros (title & data' & H); case_decide; discriminate H |].
      intros (d' & H & _). discriminate H.
    + intros title data' H. case_decide; discriminate H.
Qed.

(** X15: the error the form shows, by what the library did.  A device handle
    that cannot be made for lack of an answer, and a handshake that is
    rejected, are both reported as cannot_connect; a handshake that gets no
    answer is reported as invalid_auth; any other error of the library is
    reported as unknown; and without input the form comes without
    errors. *)
Theorem flow_error_codes (lib : broadlink) (data : user_input) :
  (gendevice lib (ui_rm_type data) (ui_ip_address data, 80) "000000000000"%string
   = Raise DeviceOfflineError ->
   async_step_user lib (Some data)
   = show_form "user" {[ "base"%string := "cannot_connect"%string ]})
  /\ (forall d,
        gendevice lib (ui_rm_type data) (ui_ip_address data, 80) "000000000000"%string
        = Ok d ->
        auth lib d = Ok false ->
        async_step_user lib (Some data)
        = show_form "user" {[ "base"%string := "cannot_connect"%string ]})
  /\ (forall d,
        gendevice lib (ui_rm_type data) (ui_ip_address data, 80) "000000000000"%string
        = Ok d ->
        auth lib d = Raise DeviceOfflineError ->
        async_step_user lib (Some data)
        = show_form "user" {[ "base"%string := "invalid_auth"%string ]})
  /\ (forall d what,
        gendevice lib (ui_rm_type data) (ui_ip_address data, 80) "000000000000"%string
        = Ok d ->
        auth lib d = Raise (LibraryError what) ->
        async_step_user lib (Some data)
        = show_form "user" {[ "base"%string := "unknown"%string ]})
  /\ (forall what,
        gendevice lib (ui_rm_type data) (ui_ip_address data, 80) "000000000000"%string
        = Raise (LibraryError what) ->
        async_step_user lib (Some data)
        = show_form "user" {[ "base"%string := "unknown"%string ]})
  /\ async_step_user lib None = show_form "user" ∅.
Proof.
  rewrite async_step_user_cases, BroadlinkTadiran_init_cases.
  split; [| split; [| split; [| split; [| split]]]].
  - intros ->. reflexivity.
  - intros d -> ->. reflexivity.
  - intros d -> ->. reflexivity.
  - intros d what -> ->. reflexivity.
  - intros what ->. reflexivity.
  - reflexivity.
Qed.
